(** * The power assertion client (src/power.c) and its command line driver
      (tools/idevicepower.c)

    A shallow embedding of the assertion client and of the driver that uses
    it.  The property list transport, the device discovery and the lockdown
    handshake are collaborators outside these sources: they appear here as
    interfaces (type classes) whose replies are arbitrary, and every theorem
    holds for all of their implementations. *)

From Stdlib Require Import ZArith Lia String Ascii List.
From stdpp Require Import gmap strings list fin_maps.

Local Open Scope Z_scope.

(** ** Error domains *)

(** [power_error_t], include/libimobiledevice/power.h. *)
Inductive power_error_t : Set :=
| POWER_E_SUCCESS
| POWER_E_INVALID_ARG
| POWER_E_PLIST_ERROR
| POWER_E_MUX_ERROR
| POWER_E_SSL_ERROR
| POWER_E_NOT_ENOUGH_DATA
| POWER_E_TIMEOUT
| POWER_E_UNKNOWN_ERROR.

#[global] Instance power_error_t_eq_dec : EqDecision power_error_t.
Proof. solve_decision. Defined.

(** The integer encoding fixed by the enum in power.h. *)
Definition power_error_code (e : power_error_t) : Z :=
  match e with
  | POWER_E_SUCCESS => 0
  | POWER_E_INVALID_ARG => -1
  | POWER_E_PLIST_ERROR => -2
  | POWER_E_MUX_ERROR => -3
  | POWER_E_SSL_ERROR => -4
  | POWER_E_NOT_ENOUGH_DATA => -5
  | POWER_E_TIMEOUT => -6
  | POWER_E_UNKNOWN_ERROR => -256
  end.

(** [property_list_service_error_t].  The header that numbers these codes is
    not among the sources, so the seven codes that [power_error] names in its
    case labels stay symbolic; the last constructor stands for every other
    value of the transport's error domain (distinct from the seven, as case
    labels of one switch are). *)
Inductive property_list_service_error_t : Set :=
| PROPERTY_LIST_SERVICE_E_SUCCESS
| PROPERTY_LIST_SERVICE_E_INVALID_ARG
| PROPERTY_LIST_SERVICE_E_PLIST_ERROR
| PROPERTY_LIST_SERVICE_E_MUX_ERROR
| PROPERTY_LIST_SERVICE_E_SSL_ERROR
| PROPERTY_LIST_SERVICE_E_NOT_ENOUGH_DATA
| PROPERTY_LIST_SERVICE_E_RECEIVE_TIMEOUT
| PROPERTY_LIST_SERVICE_E_OTHER (code : Z).

#[global] Instance property_list_service_error_t_eq_dec :
  EqDecision property_list_service_error_t.
Proof. solve_decision. Defined.

(** power.c, [power_error]: the switch with its default arm. *)
Definition power_error (err : property_list_service_error_t) : power_error_t :=
  match err with
  | PROPERTY_LIST_SERVICE_E_SUCCESS => POWER_E_SUCCESS
  | PROPERTY_LIST_SERVICE_E_INVALID_ARG => POWER_E_INVALID_ARG
  | PROPERTY_LIST_SERVICE_E_PLIST_ERROR => POWER_E_PLIST_ERROR
  | PROPERTY_LIST_SERVICE_E_MUX_ERROR => POWER_E_MUX_ERROR
  | PROPERTY_LIST_SERVICE_E_SSL_ERROR => POWER_E_SSL_ERROR
  | PROPERTY_LIST_SERVICE_E_NOT_ENOUGH_DATA => POWER_E_NOT_ENOUGH_DATA
  | PROPERTY_LIST_SERVICE_E_RECEIVE_TIMEOUT => POWER_E_TIMEOUT
  | PROPERTY_LIST_SERVICE_E_OTHER _ => POWER_E_UNKNOWN_ERROR
  end.

(** ** Data *)

(** Addresses of heap objects and of caller variables.  A C pointer is an
    [option loc], with [None] for NULL. *)
Abbreviation loc := positive (only parsing).

(** Property list documents, as far as the driver builds them: strings,
    unsigned integers and dictionaries that keep the order of insertion. *)
#[warnings="-register-all"]
Inductive plist : Set :=
| PLIST_STRING (s : string)
| PLIST_UINT (n : Z)
| PLIST_DICT (items : list (string * plist)).

(** [plist_t]: a pointer to a document node. *)
Abbreviation plist_t := (option positive) (only parsing).

(** [power_client_t]: a pointer to a [struct power_client_private]. *)
Abbreviation power_client_t := (option positive) (only parsing).

(** [property_list_service_client_t]: the transport's session handle; the
    client stores it and passes it back, and never looks inside. *)
Abbreviation property_list_service_client_t := (option positive) (only parsing).

(** [idevice_t]: the device handle, opaque as well. *)
Abbreviation idevice_t := (option positive) (only parsing).

(** The one field of the service descriptor that the code reads
    ([uint16_t port]). *)
Record lockdownd_service_descriptor : Set := { port : Z }.

(** [lockdownd_service_descriptor_t]: a pointer to a descriptor. *)
Abbreviation lockdownd_service_descriptor_t :=
  (option lockdownd_service_descriptor) (only parsing).

(** [struct power_client_private]. *)
Record power_client_private : Set := { parent : property_list_service_client_t }.

(** Calls that leave the process, in the order they are made. *)
Inductive event : Set :=
| property_list_service_client_new_call
    (device : idevice_t) (service : lockdownd_service_descriptor_t)
| property_list_service_client_free_call (session : property_list_service_client_t)
| property_list_service_send_binary_plist_call
    (session : property_list_service_client_t) (document : option plist)
| property_list_service_receive_plist_with_timeout_call
    (session : property_list_service_client_t) (timeout_ms : Z)
| idevice_set_debug_level_call (level : Z)
| idevice_new_with_options_call (udid : option string) (lookup_network : bool)
| idevice_free_call (device : idevice_t)
| lockdownd_client_new_with_handshake_call (device : idevice_t) (label : string)
| lockdownd_start_service_call (client : option loc) (identifier : string)
| lockdownd_client_free_call (client : option loc)
| lockdownd_service_descriptor_free_call (service : lockdownd_service_descriptor_t)
| sleep_call (seconds : Z)
| print_usage_call (is_error : bool)
| printf_call (to_stderr : bool) (format : string).

(** The memory the code works on and the calls made so far.
    [clients] holds the live [struct power_client_private] allocations,
    [plists] the live documents, [client_slots] and [plist_slots] the caller
    variables of type [power_client_t] and [plist_t] that are passed by
    address. *)
Record world : Type := World {
  clients : gmap loc power_client_private;
  plists : gmap loc plist;
  client_slots : gmap loc power_client_t;
  plist_slots : gmap loc plist_t;
  trace : list event
}.

(** ** Computations: state passing with a fault *)

(** [Fault] is a NULL or dangling dereference: the C code has no defined
    behaviour there and does not return. *)
Inductive outcome (A : Type) : Type :=
| Fault
| Ret (a : A) (w : world).
Arguments Fault {A}.
Arguments Ret {A} a w.

Definition M (A : Type) : Type := world -> outcome A.

Definition ret {A} (a : A) : M A := fun w => Ret a w.

Definition bind {A B} (c : M A) (k : A -> M B) : M B :=
  fun w => match c w with
           | Fault => Fault
           | Ret a w' => k a w'
           end.

Notation "x <- c ;; k" := (bind c (fun x => k))
  (at level 100, c at next level, right associativity).
Notation "c ;; k" := (bind c (fun _ => k))
  (at level 100, right associativity).

(** The return value of a finished call, if it finished. *)
Definition returned {A} (o : outcome A) : option A :=
  match o with
  | Fault => None
  | Ret a _ => Some a
  end.

(** The state a finished call leaves. *)
Definition final {A} (o : outcome A) : option world :=
  match o with
  | Fault => None
  | Ret _ w => Some w
  end.

Definition call (e : event) : M unit :=
  fun w => Ret tt (World (clients w) (plists w) (client_slots w) (plist_slots w)
                         (trace w ++ [e])).

(** [*client] read through a [power_client_t *]. *)
Definition load_client_slot (p : option loc) : M power_client_t :=
  fun w => match p with
           | None => Fault
           | Some a => match client_slots w !! a with
                       | None => Fault
                       | Some v => Ret v w
                       end
           end.

(** [*client = v]. *)
Definition store_client_slot (p : option loc) (v : power_client_t) : M unit :=
  fun w => match p with
           | None => Fault
           | Some a => match client_slots w !! a with
                       | None => Fault
                       | Some _ =>
                           Ret tt (World (clients w) (plists w)
                                         (<[a := v]> (client_slots w))
                                         (plist_slots w) (trace w))
                       end
           end.

(** [*plist] read through a [plist_t *]. *)
Definition load_plist_slot (p : option loc) : M plist_t :=
  fun w => match p with
           | None => Fault
           | Some a => match plist_slots w !! a with
                       | None => Fault
                       | Some v => Ret v w
                       end
           end.

(** [*plist = v]. *)
Definition store_plist_slot (p : option loc) (v : plist_t) : M unit :=
  fun w => match p with
           | None => Fault
           | Some a => match plist_slots w !! a with
                       | None => Fault
                       | Some _ =>
                           Ret tt (World (clients w) (plists w) (client_slots w)
                                         (<[a := v]> (plist_slots w)) (trace w))
                       end
           end.

(** [client->parent]. *)
Definition load_parent (client : power_client_t) : M property_list_service_client_t :=
  fun w => match client with
           | None => Fault
           | Some a => match clients w !! a with
                       | None => Fault
                       | Some c => Ret (parent c) w
                       end
           end.

(** [client->parent = v]. *)
Definition store_parent (client : power_client_t)
    (v : property_list_service_client_t) : M unit :=
  fun w => match client with
           | None => Fault
           | Some a => match clients w !! a with
                       | None => Fault
                       | Some _ =>
                           Ret tt (World (<[a := {| parent := v |}]> (clients w))
                                         (plists w) (client_slots w)
                                         (plist_slots w) (trace w))
                       end
           end.

(** [free(client)]: nothing on NULL, a fault on a block that is not live. *)
Definition free_client (client : power_client_t) : M unit :=
  fun w => match client with
           | None => Ret tt w
           | Some a => match clients w !! a with
                       | None => Fault
                       | Some _ =>
                           Ret tt (World (delete a (clients w)) (plists w)
                                         (client_slots w) (plist_slots w) (trace w))
                       end
           end.

(** A document comes to life at an address not in use. *)
Definition new_plist (v : plist) : M plist_t :=
  fun w => let a := fresh (dom (plists w)) in
           Ret (Some a) (World (clients w) (<[a := v]> (plists w))
                               (client_slots w) (plist_slots w) (trace w)).

(** The document a pointer stands for, as a callee that reads it sees it. *)
Definition read_plist (p : plist_t) : M (option plist) :=
  fun w => match p with
           | None => Ret None w
           | Some a => match plists w !! a with
                       | None => Fault
                       | Some v => Ret (Some v) w
                       end
           end.

(** [plist_free]: nothing on NULL, releases a live document. *)
Definition plist_free (p : plist_t) : M unit :=
  fun w => match p with
           | None => Ret tt w
           | Some a => match plists w !! a with
                       | None => Fault
                       | Some _ =>
                           Ret tt (World (clients w) (delete a (plists w))
                                         (client_slots w) (plist_slots w) (trace w))
                       end
           end.

(** ** Collaborators *)

(** The property list transport.  Each operation below calls a primitive at
    most once, so a reply given as a function of the call's arguments loses
    no behaviour of a stateful transport. *)
Class Transport : Type := {
  client_new_reply :
    idevice_t -> lockdownd_service_descriptor_t ->
    property_list_service_error_t * property_list_service_client_t;
  client_free_reply :
    property_list_service_client_t -> property_list_service_error_t;
  send_binary_plist_reply :
    property_list_service_client_t -> option plist -> property_list_service_error_t;
  receive_plist_with_timeout_reply :
    property_list_service_client_t -> Z ->
    property_list_service_error_t * option plist
}.

(** What the C library decides: whether [malloc] returns NULL, and the
    [int] that [atoi] reads from a string. *)
Class Libc : Type := {
  malloc_fails : bool;
  atoi : string -> Z;
  atoi_int : forall s, - 2 ^ 31 <= atoi s < 2 ^ 31
}.

Section Client.
Context {transport : Transport} {libc : Libc}.

(** [malloc(sizeof(struct power_client_private))]: NULL, or a block not in
    use whose content is yet to be written. *)
Definition malloc_power_client : M power_client_t :=
  fun w => if malloc_fails then Ret None w
           else let a := fresh (dom (clients w)) in
                Ret (Some a) (World (<[a := {| parent := None |}]> (clients w))
                                    (plists w) (client_slots w) (plist_slots w)
                                    (trace w)).

Definition property_list_service_client_new (device : idevice_t)
    (service : lockdownd_service_descriptor_t)
    : M (property_list_service_error_t * property_list_service_client_t) :=
  call (property_list_service_client_new_call device service) ;;
  ret (client_new_reply device service).

Definition property_list_service_client_free
    (session : property_list_service_client_t) : M property_list_service_error_t :=
  call (property_list_service_client_free_call session) ;;
  ret (client_free_reply session).

Definition property_list_service_send_binary_plist
    (session : property_list_service_client_t) (p : plist_t)
    : M property_list_service_error_t :=
  document <- read_plist p ;;
  call (property_list_service_send_binary_plist_call session document) ;;
  ret (send_binary_plist_reply session document).

(** The received document, when there is one, is a new live document that
    the caller owns. *)
Definition property_list_service_receive_plist_with_timeout
    (session : property_list_service_client_t) (timeout_ms : Z)
    : M (property_list_service_error_t * plist_t) :=
  call (property_list_service_receive_plist_with_timeout_call session timeout_ms) ;;
  match receive_plist_with_timeout_reply session timeout_ms with
  | (err, None) => ret (err, None)
  | (err, Some v) => outplist <- new_plist v ;; ret (err, outplist)
  end.

(** The condition of the [if] in [power_client_new], with C's left to right
    short circuit: [!device || !service || service->port == 0 || !client
    || *client]. *)
Definition power_client_new_invalid (device : idevice_t)
    (service : lockdownd_service_descriptor_t) (client : option loc) : M bool :=
  match device, service with
  | None, _ => ret true
  | Some _, None => ret true
  | Some _, Some s =>
      if port s =? 0 then ret true
      else match client with
           | None => ret true
           | Some _ =>
               v <- load_client_slot client ;;
               ret (match v with Some _ => true | None => false end)
           end
  end.

(** power.c, [power_client_new] after its first statement. *)
Definition power_client_new_checked (device : idevice_t)
    (service : lockdownd_service_descriptor_t) (client : option loc)
    : M power_error_t :=
  invalid <- power_client_new_invalid device service client ;;
  if invalid then ret POWER_E_INVALID_ARG
  else
    r <- property_list_service_client_new device service ;;
    let res := power_error (fst r) in
    if decide (res <> POWER_E_SUCCESS) then ret res
    else
      client_loc <- malloc_power_client ;;
      store_parent client_loc (snd r) ;;
      store_client_slot client client_loc ;;
      ret POWER_E_SUCCESS.

(** power.c, [power_client_new]: [*client = NULL] comes first. *)
Definition power_client_new (device : idevice_t)
    (service : lockdownd_service_descriptor_t) (client : option loc)
    : M power_error_t :=
  store_client_slot client None ;;
  power_client_new_checked device service client.

(** power.c, [power_client_free]. *)
Definition power_client_free (client : power_client_t) : M power_error_t :=
  match client with
  | None => ret POWER_E_INVALID_ARG
  | Some _ =>
      session <- load_parent client ;;
      e <- property_list_service_client_free session ;;
      free_client client ;;
      ret (power_error e)
  end.

(** power.c, [power_send]. *)
Definition power_send (client : power_client_t) (p : plist_t) : M power_error_t :=
  session <- load_parent client ;;
  e <- property_list_service_send_binary_plist session p ;;
  let res := power_error e in
  if decide (res <> POWER_E_SUCCESS) then ret res else ret res.

(** power.c, [power_receive_with_timeout]. *)
Definition power_receive_with_timeout (client : power_client_t)
    (p : option loc) (timeout_ms : Z) : M power_error_t :=
  session <- load_parent client ;;
  r <- property_list_service_receive_plist_with_timeout session timeout_ms ;;
  let res := power_error (fst r) in
  let outplist := snd r in
  if decide (res <> POWER_E_SUCCESS \/ outplist = None) then
    plist_free outplist ;;
    ret POWER_E_MUX_ERROR
  else
    store_plist_slot p outplist ;;
    ret res.

(** power.c, [power_receive]. *)
Definition power_receive (client : power_client_t) (p : option loc)
    : M power_error_t :=
  power_receive_with_timeout client p 1000.

End Client.

(** ** The driver, tools/idevicepower.c *)

(** [idevice_error_t] and [lockdownd_error_t]: the driver only compares them
    with their success value. *)
Inductive idevice_error_t : Set :=
| IDEVICE_E_SUCCESS
| IDEVICE_E_OTHER (code : Z).

Inductive lockdownd_error_t : Set :=
| LOCKDOWN_E_SUCCESS
| LOCKDOWN_E_OTHER (code : Z).

#[global] Instance idevice_error_t_eq_dec : EqDecision idevice_error_t.
Proof. solve_decision. Defined.

#[global] Instance lockdownd_error_t_eq_dec : EqDecision lockdownd_error_t.
Proof. solve_decision. Defined.

(** [lockdownd_client_t]: the handle of the control connection. *)
Abbreviation lockdownd_client_t := (option positive) (only parsing).

(** Device discovery and the lockdown control connection. *)
Class Discovery : Type := {
  idevice_new_with_options_reply :
    option string -> bool -> idevice_error_t * idevice_t;
  lockdownd_client_new_with_handshake_reply :
    idevice_t -> string -> lockdownd_error_t * lockdownd_client_t;
  lockdownd_start_service_reply :
    lockdownd_client_t -> string ->
    lockdownd_error_t * lockdownd_service_descriptor_t
}.

(** [enum cmd_mode]. *)
Inductive cmd_mode : Set :=
| CMD_NONE
| CMD_WIRELESS_SYNC
| CMD_USER_IDLE_SLEEP
| CMD_SYSTEM_SLEEP.

(** [EXIT_SUCCESS] and [EXIT_FAILURE] of <stdlib.h>, with the values they
    have on the platforms the tool is built for. *)
Definition EXIT_SUCCESS : Z := 0.
Definition EXIT_FAILURE : Z := 1.

(** The macro [TOOL_NAME]. *)
Definition TOOL_NAME : string := "idevicepower".

(** The variables that the option loop of [main] sets. *)
Record settings : Set := {
  udid : option string;
  use_network : bool;
  timeout : Z
}.

(** [main] has returned from inside the option loop, or goes on. *)
Inductive parsed : Set :=
| Exit (status : Z)
| Parsed (s : settings).

(** [plist_dict_set_item] on the entries of a dictionary: the value of an
    existing key is replaced in place, a new key goes to the end. *)
Fixpoint dict_set (items : list (string * plist)) (key : string) (item : plist)
    : list (string * plist) :=
  match items with
  | [] => [(key, item)]
  | (k, v) :: rest =>
      if String.eqb k key then (k, item) :: rest
      else (k, v) :: dict_set rest key item
  end.

(** [plist_dict_set_item(node, key, item)]; a node that is no dictionary is
    left alone. *)
Definition plist_dict_set_item (node : plist_t) (key : string) (item : plist)
    : M unit :=
  fun w => match node with
           | None => Ret tt w
           | Some a =>
               match plists w !! a with
               | None => Fault
               | Some (PLIST_DICT items) =>
                   Ret tt (World (clients w)
                                 (<[a := PLIST_DICT (dict_set items key item)]> (plists w))
                                 (client_slots w) (plist_slots w) (trace w))
               | Some _ => Ret tt w
               end
           end.

(** [plist_new_uint(uint64_t)] applied to an [int]. *)
Definition plist_new_uint (val : Z) : plist := PLIST_UINT (val mod 2 ^ 64).

(** A local variable of type [power_client_t], initialised to NULL, whose
    address is taken. *)
Definition local_power_client : M loc :=
  fun w => let a := fresh (dom (client_slots w)) in
           Ret a (World (clients w) (plists w) (<[a := None]> (client_slots w))
                        (plist_slots w) (trace w)).

(** A local variable of type [plist_t], initialised to NULL, whose address
    is taken. *)
Definition local_plist : M loc :=
  fun w => let a := fresh (dom (plist_slots w)) in
           Ret a (World (clients w) (plists w) (client_slots w)
                        (<[a := None]> (plist_slots w)) (trace w)).

(** The state in which a process starts. *)
Definition initial_world : world := World ∅ ∅ ∅ ∅ [].

Section Driver.
Context {transport : Transport} {libc : Libc} {discovery : Discovery}.

(** The [while ((c = getopt_long(...)) != -1)] loop of [main].  [opts] is
    what successive calls of [getopt_long] return: the option character and
    [optarg]. *)
Fixpoint parse_options (opts : list (ascii * string)) (s : settings) : M parsed :=
  match opts with
  | [] => ret (Parsed s)
  | (c, optarg) :: rest =>
      if Ascii.eqb c "d" then
        call (idevice_set_debug_level_call 1) ;;
        parse_options rest s
      else if Ascii.eqb c "u" then
        if String.eqb optarg "" then
          call (printf_call true "ERROR: UDID argument must not be empty!\n") ;;
          call (print_usage_call true) ;;
          ret (Exit 2)
        else
          parse_options rest {| udid := Some optarg;
                                use_network := use_network s;
                                timeout := timeout s |}
      else if Ascii.eqb c "t" then
        if String.eqb optarg "" then
          call (printf_call true "ERROR: Timeout argument must not be empty!\n") ;;
          call (print_usage_call true) ;;
          ret (Exit 2)
        else
          let t := atoi optarg in
          if t <=? 0 then
            call (printf_call true
                    "ERROR: Invalid timeout value (must be greater than 0)!\n") ;;
            call (print_usage_call true) ;;
            ret (Exit 2)
          else
            parse_options rest {| udid := udid s;
                                  use_network := use_network s;
                                  timeout := t |}
      else if Ascii.eqb c "n" then
        parse_options rest {| udid := udid s;
                              use_network := true;
                              timeout := timeout s |}
      else if Ascii.eqb c "h" then
        call (print_usage_call false) ;;
        ret (Exit 0)
      else if Ascii.eqb c "v" then
        call (printf_call false "%s %s\n") ;;
        ret (Exit 0)
      else
        call (print_usage_call true) ;;
        ret (Exit 2)
  end.

(** The chain of [strcmp] on [argv[0]]. *)
Definition command (arg : string) : cmd_mode :=
  if String.eqb arg "sync" then CMD_WIRELESS_SYNC
  else if String.eqb arg "idle" then CMD_USER_IDLE_SLEEP
  else if String.eqb arg "sleep" then CMD_SYSTEM_SLEEP
  else CMD_NONE.

(** The [switch (cmd)] that sets the assertion type; it has no default. *)
Definition set_assertion_type (cmd : cmd_mode) (assertion : plist_t) : M unit :=
  match cmd with
  | CMD_WIRELESS_SYNC =>
      plist_dict_set_item assertion "AssertionTypeKey"
        (PLIST_STRING "AMDPowerAssertionTypeWirelessSync")
  | CMD_USER_IDLE_SLEEP =>
      plist_dict_set_item assertion "AssertionTypeKey"
        (PLIST_STRING "PreventUserIdleSystemSleep")
  | CMD_SYSTEM_SLEEP =>
      plist_dict_set_item assertion "AssertionTypeKey"
        (PLIST_STRING "PreventSystemSleep")
  | CMD_NONE => ret tt
  end.

(** Lines 199 to 216: the request document, left in the variable
    [assertion]. *)
Definition build_request (cmd : cmd_mode) (timeout : Z) (assertion : loc) : M unit :=
  d <- new_plist (PLIST_DICT []) ;;
  store_plist_slot (Some assertion) d ;;
  a <- load_plist_slot (Some assertion) ;;
  plist_dict_set_item a "CommandKey" (PLIST_STRING "CommandCreateAssertion") ;;
  set_assertion_type cmd a ;;
  plist_dict_set_item a "AssertionNameKey" (PLIST_STRING TOOL_NAME) ;;
  plist_dict_set_item a "AssertionTimeoutKey" (plist_new_uint timeout) ;;
  plist_dict_set_item a "AssertionDetailKey" (PLIST_STRING "power update").

(** Lines 218 to 232: send, release the request, receive; the value is the
    new [result]. *)
Definition send_and_receive (power_client assertion : loc) : M Z :=
  pc <- load_client_slot (Some power_client) ;;
  a <- load_plist_slot (Some assertion) ;;
  perr <- power_send pc a ;;
  plist_free a ;;
  store_plist_slot (Some assertion) None ;;
  if decide (perr <> POWER_E_SUCCESS) then
    call (printf_call false "ERROR: Could not send power assertion: %d\n") ;;
    ret EXIT_FAILURE
  else
    perr <- power_receive pc (Some assertion) ;;
    if decide (perr <> POWER_E_SUCCESS) then
      call (printf_call false "ERROR: Could not receive power assertion: %d\n") ;;
      ret EXIT_FAILURE
    else ret EXIT_SUCCESS.

(** Lines 234 to 237; [sleep] takes an [unsigned int]. *)
Definition hold (timeout : Z) : M unit :=
  let timeout := if timeout >? 10 then timeout - 10 else timeout in
  call (sleep_call (timeout mod 2 ^ 32)).

(** The label [cleanup]; [cmd_arg] is NULL throughout. *)
Definition cleanup (assertion : loc) (result : Z) : M Z :=
  a <- load_plist_slot (Some assertion) ;;
  match a with
  | Some _ => plist_free a ;; ret result
  | None => ret result
  end.

(** Lines 195 to 242: the branch that talks to the service; the value is
    [result]. *)
Definition assert_power (cmd : cmd_mode) (s : settings) (device : idevice_t)
    (service : lockdownd_service_descriptor_t) (power_client assertion : loc) : M Z :=
  match service with
  | Some sd =>
      if port sd >? 0 then
        e <- power_client_new device service (Some power_client) ;;
        if decide (e <> POWER_E_SUCCESS) then
          call (printf_call false "ERROR: Could not connect to power!\n") ;;
          ret EXIT_FAILURE
        else
          build_request cmd (timeout s) assertion ;;
          result <- send_and_receive power_client assertion ;;
          hold (timeout s) ;;
          pc <- load_client_slot (Some power_client) ;;
          power_client_free pc ;;
          ret result
      else
        call (printf_call false "ERROR: Could not start power service!\n") ;;
        ret EXIT_FAILURE
  | None =>
      call (printf_call false "ERROR: Could not start power service!\n") ;;
      ret EXIT_FAILURE
  end.

(** [main] from line 171 on, for a known command. *)
Definition run (cmd : cmd_mode) (s : settings) (power_client assertion : loc) : M Z :=
  call (idevice_new_with_options_call (udid s) (use_network s)) ;;
  let found := idevice_new_with_options_reply (udid s) (use_network s) in
  let device := snd found in
  if decide (IDEVICE_E_SUCCESS <> fst found) then
    call (printf_call false
            (match udid s with
             | Some _ => "No device found with udid %s.\n"
             | None => "No device found.\n"
             end)) ;;
    cleanup assertion EXIT_FAILURE
  else
    call (lockdownd_client_new_with_handshake_call device TOOL_NAME) ;;
    let shaken := lockdownd_client_new_with_handshake_reply device TOOL_NAME in
    let lockdown_client := snd shaken in
    if decide (LOCKDOWN_E_SUCCESS <> fst shaken) then
      call (idevice_free_call device) ;;
      call (printf_call false
              "ERROR: Could not connect to lockdownd, error code %d\n") ;;
      cleanup assertion EXIT_FAILURE
    else
      call (lockdownd_start_service_call lockdown_client
              "com.apple.mobile.assertion_agent") ;;
      let started :=
        lockdownd_start_service_reply lockdown_client
          "com.apple.mobile.assertion_agent" in
      let service := snd started in
      call (lockdownd_client_free_call lockdown_client) ;;
      if decide (fst started <> LOCKDOWN_E_SUCCESS) then
        call (idevice_free_call device) ;;
        call (printf_call false
                "ERROR: Could not start power agent service: %s\n") ;;
        cleanup assertion EXIT_FAILURE
      else
        result <- assert_power cmd s device service power_client assertion ;;
        match service with
        | Some _ => call (lockdownd_service_descriptor_free_call service)
        | None => ret tt
        end ;;
        call (idevice_free_call device) ;;
        cleanup assertion result.

(** [main]: [opts] is the option part of the command line as [getopt_long]
    hands it out, [args] what is left at [argv + optind]. *)
Definition main (opts : list (ascii * string)) (args : list string) : M Z :=
  power_client <- local_power_client ;;
  assertion <- local_plist ;;
  r <- parse_options opts {| udid := None; use_network := false; timeout := 60 |} ;;
  match r with
  | Exit status => ret status
  | Parsed s =>
      match args with
      | [] =>
          call (printf_call true "ERROR: No command specified\n") ;;
          call (print_usage_call true) ;;
          ret 2
      | arg :: _ =>
          match command arg with
          | CMD_NONE =>
              call (printf_call true "ERROR: Unsupported command '%s'\n") ;;
              call (print_usage_call true) ;;
              cleanup assertion EXIT_FAILURE
          | cmd => run cmd s power_client assertion
          end
      end
  end.

End Driver.

(** ** States and collaborators used to state the properties *)

(** The state after one more call. *)
Definition after_call (w : world) (e : event) : world :=
  World (clients w) (plists w) (client_slots w) (plist_slots w) (trace w ++ [e]).

(** The state after [*client = NULL]. *)
Definition cleared (s : loc) (w : world) : world :=
  World (clients w) (plists w) (<[s := None]> (client_slots w)) (plist_slots w)
        (trace w).

(** The state in which the variable at [s] holds [v]. *)
Definition with_client_slot (s : loc) (v : power_client_t) (w : world) : world :=
  World (clients w) (plists w) (<[s := v]> (client_slots w)) (plist_slots w)
        (trace w).

(** A transport that gives the same replies whatever it is asked. *)
Definition fixed_transport
    (new_reply : property_list_service_error_t * property_list_service_client_t)
    (free_reply send_reply : property_list_service_error_t)
    (receive_reply : property_list_service_error_t * option plist) : Transport :=
  {| client_new_reply _ _ := new_reply;
     client_free_reply _ := free_reply;
     send_binary_plist_reply _ _ := send_reply;
     receive_plist_with_timeout_reply _ _ := receive_reply |}.

(** A transport on which every primitive succeeds and every receive delivers
    the document [v]. *)
Definition good_transport (v : plist) : Transport :=
  fixed_transport (PROPERTY_LIST_SERVICE_E_SUCCESS, Some 7%positive)
    PROPERTY_LIST_SERVICE_E_SUCCESS PROPERTY_LIST_SERVICE_E_SUCCESS
    (PROPERTY_LIST_SERVICE_E_SUCCESS, Some v).

(** A transport whose receive gives [r] and that is otherwise good. *)
Definition receiving_transport
    (r : property_list_service_error_t * option plist) : Transport :=
  fixed_transport (PROPERTY_LIST_SERVICE_E_SUCCESS, Some 7%positive)
    PROPERTY_LIST_SERVICE_E_SUCCESS PROPERTY_LIST_SERVICE_E_SUCCESS r.

(** The value of a run of decimal digits, read from the left. *)
Fixpoint decimal (s : string) (acc : Z) : Z :=
  match s with
  | EmptyString => acc
  | String c rest =>
      let n := Z.of_nat (nat_of_ascii c) in
      if (48 <=? n) && (n <=? 57) then decimal rest (10 * acc + (n - 48))
      else acc
  end.

(** A C library whose [malloc] succeeds and whose [atoi] reads unsigned
    decimal text, saturating at INT_MAX. *)
Definition decimal_libc : Libc.
Proof.
  refine {| malloc_fails := false;
            atoi s := Z.max (- 2 ^ 31) (Z.min (2 ^ 31 - 1) (decimal s 0)) |}.
  intros s. lia.
Defined.

(** A state with one live client at address 1 on session 7, and one
    [plist_t] variable and one [power_client_t] variable at address 1, both
    holding NULL. *)
Definition one_client : world :=
  World {[ 1%positive := {| parent := Some 7%positive |} ]} ∅
        {[ 1%positive := None ]} {[ 1%positive := None ]} [].

(** The same state with both variables already populated: the [plist_t]
    variable points to a live document and the [power_client_t] variable to
    the live client. *)
Definition populated : world :=
  World {[ 1%positive := {| parent := Some 7%positive |} ]}
        {[ 1%positive := PLIST_STRING "earlier" ]}
        {[ 1%positive := Some 1%positive ]} {[ 1%positive := Some 1%positive ]} [].

(** [populated] after [power_client_free] of its client: the client is gone
    and the [power_client_t] variable still holds its address. *)
Definition released : world :=
  World ∅ {[ 1%positive := PLIST_STRING "earlier" ]}
        {[ 1%positive := Some 1%positive ]} {[ 1%positive := Some 1%positive ]}
        [property_list_service_client_free_call (Some 7%positive)].

(** [released] after [power_client_new] on the same variable: the block of
    the client that was freed has been given out again. *)
Definition reallocated : world :=
  World {[ 1%positive := {| parent := Some 7%positive |} ]}
        {[ 1%positive := PLIST_STRING "earlier" ]}
        {[ 1%positive := Some 1%positive ]} {[ 1%positive := Some 1%positive ]}
        [property_list_service_client_free_call (Some 7%positive);
         property_list_service_client_new_call (Some 3%positive)
           (Some {| port := 49152 |})].

(** [populated] after [power_client_new] on its variable: the first client
    is still live, and the variable points to a second one. *)
Definition second_client : world :=
  World {[ 1%positive := {| parent := Some 7%positive |};
           2%positive := {| parent := Some 7%positive |} ]}
        {[ 1%positive := PLIST_STRING "earlier" ]}
        {[ 1%positive := Some 2%positive ]} {[ 1%positive := Some 1%positive ]}
        [property_list_service_client_new_call (Some 3%positive)
           (Some {| port := 49152 |})].

(** ** The course of a run, by the collaborators' replies *)

(** The settings with which the option loop starts. *)
Definition default_settings : settings :=
  {| udid := None; use_network := false; timeout := 60 |}.

(** The type name that [set_assertion_type] writes for a command. *)
Definition assertion_type (cmd : cmd_mode) : list (string * plist) :=
  match cmd with
  | CMD_NONE => []
  | CMD_WIRELESS_SYNC =>
      [("AssertionTypeKey", PLIST_STRING "AMDPowerAssertionTypeWirelessSync")]
  | CMD_USER_IDLE_SLEEP =>
      [("AssertionTypeKey", PLIST_STRING "PreventUserIdleSystemSleep")]
  | CMD_SYSTEM_SLEEP =>
      [("AssertionTypeKey", PLIST_STRING "PreventSystemSleep")]
  end.

(** The request document for a command and a timeout. *)
Definition request (cmd : cmd_mode) (t : Z) : plist :=
  PLIST_DICT
    (("CommandKey", PLIST_STRING "CommandCreateAssertion")
     :: assertion_type cmd
     ++ [("AssertionNameKey", PLIST_STRING "idevicepower");
         ("AssertionTimeoutKey", PLIST_UINT t);
         ("AssertionDetailKey", PLIST_STRING "power update")]).

(** The seconds that [hold] sleeps for a requested timeout. *)
Definition hold_seconds (t : Z) : Z := if t >? 10 then t - 10 else t.

Section Course.
Context {transport : Transport} {libc : Libc} {discovery : Discovery}.

(** The replies that a run with settings [s] meets, stage by stage. *)
Definition found (s : settings) : idevice_error_t * idevice_t :=
  idevice_new_with_options_reply (udid s) (use_network s).

Definition shaken (s : settings) : lockdownd_error_t * lockdownd_client_t :=
  lockdownd_client_new_with_handshake_reply (snd (found s)) TOOL_NAME.

Definition started (s : settings)
    : lockdownd_error_t * lockdownd_service_descriptor_t :=
  lockdownd_start_service_reply (snd (shaken s)) "com.apple.mobile.assertion_agent".

Definition connected (s : settings)
    : property_list_service_error_t * property_list_service_client_t :=
  client_new_reply (snd (found s)) (snd (started s)).

Definition sent (cmd : cmd_mode) (s : settings) : property_list_service_error_t :=
  send_binary_plist_reply (snd (connected s)) (Some (request cmd (timeout s))).

Definition received (s : settings) : property_list_service_error_t * option plist :=
  receive_plist_with_timeout_reply (snd (connected s)) 1000.

(** The device is found, the handshake and the service start succeed with a
    usable descriptor, and the client is created. *)
Definition reaches_exchange (s : settings) : Prop :=
  fst (found s) = IDEVICE_E_SUCCESS /\
  snd (found s) <> None /\
  fst (shaken s) = LOCKDOWN_E_SUCCESS /\
  fst (started s) = LOCKDOWN_E_SUCCESS /\
  (exists sd, snd (started s) = Some sd /\ 0 < port sd) /\
  fst (connected s) = PROPERTY_LIST_SERVICE_E_SUCCESS /\
  malloc_fails = false.

(** The calls of [send_and_receive] and the [result] it yields. *)
Definition exchange_course (cmd : cmd_mode) (s : settings) : Z * list event :=
  let session := snd (connected s) in
  let e_send :=
    property_list_service_send_binary_plist_call session
      (Some (request cmd (timeout s))) in
  let e_receive :=
    property_list_service_receive_plist_with_timeout_call session 1000 in
  if decide (power_error (sent cmd s) = POWER_E_SUCCESS) then
    match received s with
    | (PROPERTY_LIST_SERVICE_E_SUCCESS, Some _) => (EXIT_SUCCESS, [e_send; e_receive])
    | _ =>
        (EXIT_FAILURE,
         [e_send; e_receive;
          printf_call false "ERROR: Could not receive power assertion: %d\n"])
    end
  else
    (EXIT_FAILURE,
     [e_send; printf_call false "ERROR: Could not send power assertion: %d\n"]).

(** The calls of [assert_power] and the [result] it yields; [None] when it
    faults. *)
Definition assert_power_course (cmd : cmd_mode) (s : settings)
    : option (Z * list event) :=
  let device := snd (found s) in
  let service := snd (started s) in
  let no_service :=
    Some (EXIT_FAILURE,
          [printf_call false "ERROR: Could not start power service!\n"]) in
  let no_client :=
    [printf_call false "ERROR: Could not connect to power!\n"] in
  match service with
  | None => no_service
  | Some sd =>
      if port sd >? 0 then
        match device with
        | None => Some (EXIT_FAILURE, no_client)
        | Some _ =>
            let e_new := property_list_service_client_new_call device service in
            match connected s with
            | (PROPERTY_LIST_SERVICE_E_SUCCESS, session) =>
                if malloc_fails then None
                else
                  Some (fst (exchange_course cmd s),
                        e_new :: snd (exchange_course cmd s)
                        ++ [sleep_call (hold_seconds (timeout s));
                            property_list_service_client_free_call session])
            | _ => Some (EXIT_FAILURE, e_new :: no_client)
            end
        end
      else no_service
  end.

(** The calls of [run] and the exit status; [None] when it faults. *)
Definition run_course (cmd : cmd_mode) (s : settings) : option (Z * list event) :=
  let device := snd (found s) in
  let lockdown_client := snd (shaken s) in
  let service := snd (started s) in
  let e_found := idevice_new_with_options_call (udid s) (use_network s) in
  let e_shaken := lockdownd_client_new_with_handshake_call device TOOL_NAME in
  let e_started :=
    lockdownd_start_service_call lockdown_client "com.apple.mobile.assertion_agent" in
  if decide (IDEVICE_E_SUCCESS <> fst (found s)) then
    Some (EXIT_FAILURE,
          [e_found;
           printf_call false (match udid s with
                              | Some _ => "No device found with udid %s.\n"
                              | None => "No device found.\n"
                              end)])
  else if decide (LOCKDOWN_E_SUCCESS <> fst (shaken s)) then
    Some (EXIT_FAILURE,
          [e_found; e_shaken; idevice_free_call device;
           printf_call false "ERROR: Could not connect to lockdownd, error code %d\n"])
  else if decide (fst (started s) <> LOCKDOWN_E_SUCCESS) then
    Some (EXIT_FAILURE,
          [e_found; e_shaken; e_started; lockdownd_client_free_call lockdown_client;
           idevice_free_call device;
           printf_call false "ERROR: Could not start power agent service: %s\n"])
  else
    match assert_power_course cmd s with
    | None => None
    | Some (result, es) =>
        Some (result,
              [e_found; e_shaken; e_started;
               lockdownd_client_free_call lockdown_client]
              ++ es
              ++ match service with
                 | Some _ => [lockdownd_service_descriptor_free_call service]
                 | None => []
                 end
              ++ [idevice_free_call device])
    end.

End Course.

(** What the option loop prints or sets up, as opposed to a call to a
    collaborator or a sleep. *)
Definition console_event (e : event) : bool :=
  match e with
  | idevice_set_debug_level_call _ | print_usage_call _ | printf_call _ _ => true
  | _ => false
  end.

(** The state [w] with the calls [es] made after it. *)
Definition after_calls (w : world) (es : list event) : world :=
  World (clients w) (plists w) (client_slots w) (plist_slots w) (trace w ++ es).

(** The variable [assertion] holds NULL or points to a live document: what
    the label [cleanup] relies on. *)
Definition assertion_ok (a : loc) (w : world) : Prop :=
  exists v, plist_slots w !! a = Some v /\
            match v with
            | None => True
            | Some d => is_Some (plists w !! d)
            end.

(** The outcome [o] of a computation started in [w] follows a course: it
    faults when the course does, and otherwise returns the course's value
    after making the course's calls, with [assertion] fit for [cleanup]. *)
Definition follows (o : outcome Z) (w : world) (a : loc)
    (course : option (Z * list event)) : Prop :=
  match course with
  | None => o = Fault
  | Some (result, es) =>
      exists w', o = Ret result w' /\ trace w' = trace w ++ es /\ assertion_ok a w'
  end.

(** The outcome [o] of a computation started in [w] ends as a course says:
    with a fault when the course has none, and otherwise with the course's
    value after the course's calls. *)
Definition finishes (o : outcome Z) (w : world)
    (course : option (Z * list event)) : Prop :=
  match course with
  | None => o = Fault
  | Some (result, es) => exists w', o = Ret result w' /\ trace w' = trace w ++ es
  end.

(** What the option loop can end with: the help text or the version goes to
    stdout exactly when the loop returns 0; any other return from the loop
    is 2, with the usage on stderr; and settings that pass have a positive
    [int] timeout. *)
Definition option_loop_ends (r : parsed) (es : list event) : Prop :=
  (In (print_usage_call false) es \/ In (printf_call false "%s %s\n") es
   <-> r = Exit 0) /\
  match r with
  | Exit status => status = 0 \/ (status = 2 /\ In (print_usage_call true) es)
  | Parsed s => 0 < timeout s < 2 ^ 31
  end.

(** The calls of [main] after the option loop has made the calls [es] and
    ended with [r], and the exit status; [None] when [main] faults. *)
Definition main_course {transport : Transport} {libc : Libc} {discovery : Discovery}
    (r : parsed) (es : list event) (args : list string)
    : option (Z * list event) :=
  match r with
  | Exit status => Some (status, es)
  | Parsed s =>
      match args with
      | [] =>
          Some (2, es ++ [printf_call true "ERROR: No command specified\n";
                          print_usage_call true])
      | arg :: _ =>
          match command arg with
          | CMD_NONE =>
              Some (EXIT_FAILURE,
                    es ++ [printf_call true "ERROR: Unsupported command '%s'\n";
                           print_usage_call true])
          | cmd =>
              match run_course cmd s with
              | None => None
              | Some (status, es') => Some (status, es ++ es')
              end
          end
      end
  end.

(** A send or a receive on the transport. *)
Definition exchange_event (e : event) : bool :=
  match e with
  | property_list_service_send_binary_plist_call _ _
  | property_list_service_receive_plist_with_timeout_call _ _ => true
  | _ => false
  end.

(** The help text or the version on stdout. *)
Definition help_event (e : event) : bool :=
  match e with
  | print_usage_call false => true
  | printf_call false format => String.eqb format "%s %s\n"
  | _ => false
  end.

(** The calls of a run that reaches the exchange, before it and after it. *)
Definition calls_before_exchange {transport : Transport} {discovery : Discovery} (s : settings)
    : list event :=
  [idevice_new_with_options_call (udid s) (use_network s);
   lockdownd_client_new_with_handshake_call (snd (found s)) TOOL_NAME;
   lockdownd_start_service_call (snd (shaken s)) "com.apple.mobile.assertion_agent";
   lockdownd_client_free_call (snd (shaken s));
   property_list_service_client_new_call (snd (found s)) (snd (started s))].

Definition calls_after_exchange {transport : Transport} {discovery : Discovery} (s : settings)
    : list event :=
  [sleep_call (hold_seconds (timeout s));
   property_list_service_client_free_call (snd (connected s));
   lockdownd_service_descriptor_free_call (snd (started s));
   idevice_free_call (snd (found s))].

(** In the calls [tr], [power_send] was called and the transport took the
    document. *)
Definition send_succeeded {transport : Transport} (tr : list event) : Prop :=
  exists session document,
    In (property_list_service_send_binary_plist_call session document) tr /\
    power_error (send_binary_plist_reply session document) = POWER_E_SUCCESS.

(** In the calls [tr], [power_receive] was called and the transport
    delivered a document with its success code. *)
Definition receive_succeeded {transport : Transport} (tr : list event) : Prop :=
  exists session timeout_ms v,
    In (property_list_service_receive_plist_with_timeout_call session timeout_ms) tr /\
    receive_plist_with_timeout_reply session timeout_ms =
      (PROPERTY_LIST_SERVICE_E_SUCCESS, Some v).

(** A discovery on which every step succeeds: device 3, control connection
    4, and a service descriptor with port 49152. *)
Definition good_discovery : Discovery :=
  {| idevice_new_with_options_reply _ _ := (IDEVICE_E_SUCCESS, Some 3%positive);
     lockdownd_client_new_with_handshake_reply _ _ :=
       (LOCKDOWN_E_SUCCESS, Some 4%positive);
     lockdownd_start_service_reply _ _ :=
       (LOCKDOWN_E_SUCCESS, Some {| port := 49152 |}) |}.

(** How an exit status relates to the calls [tr] of the run: 0 goes with
    the help text or the version on stdout, or with a successful send and a
    successful receive; and a call whose reply reports a failure goes with a
    status other than 0. *)
Definition status_explained {transport : Transport} {discovery : Discovery}
    (status : Z) (tr : list event) : Prop :=
  (status = 0 <->
   (In (print_usage_call false) tr \/ In (printf_call false "%s %s\n") tr) \/
   (send_succeeded tr /\ receive_succeeded tr)) /\
  (forall u n,
     In (idevice_new_with_options_call u n) tr ->
     fst (idevice_new_with_options_reply u n) <> IDEVICE_E_SUCCESS ->
     status <> 0) /\
  (forall d l,
     In (lockdownd_client_new_with_handshake_call d l) tr ->
     fst (lockdownd_client_new_with_handshake_reply d l) <> LOCKDOWN_E_SUCCESS ->
     status <> 0) /\
  (forall c i,
     In (lockdownd_start_service_call c i) tr ->
     fst (lockdownd_start_service_reply c i) <> LOCKDOWN_E_SUCCESS ->
     status <> 0) /\
  (forall d sv,
     In (property_list_service_client_new_call d sv) tr ->
     fst (client_new_reply d sv) <> PROPERTY_LIST_SERVICE_E_SUCCESS ->
     status <> 0) /\
  (forall session document,
     In (property_list_service_send_binary_plist_call session document) tr ->
     power_error (send_binary_plist_reply session document) <> POWER_E_SUCCESS ->
     status <> 0) /\
  (forall session timeout_ms,
     In (property_list_service_receive_plist_with_timeout_call session timeout_ms) tr ->
     (forall v, receive_plist_with_timeout_reply session timeout_ms
                <> (PROPERTY_LIST_SERVICE_E_SUCCESS, Some v)) ->
     status <> 0).

(** The settings after the options [-t 30] and after [-t 5]. *)
Definition timeout_30 : settings :=
  {| udid := None; use_network := false; timeout := 30 |}.

Definition timeout_5 : settings :=
  {| udid := None; use_network := false; timeout := 5 |}.

(** The calls of [idevicepower -t 30 idle] when every collaborator
    succeeds. *)
Definition idle_30_calls : list event :=
  [idevice_new_with_options_call None false;
   lockdownd_client_new_with_handshake_call (Some 3%positive) "idevicepower";
   lockdownd_start_service_call (Some 4%positive) "com.apple.mobile.assertion_agent";
   lockdownd_client_free_call (Some 4%positive);
   property_list_service_client_new_call (Some 3%positive) (Some {| port := 49152 |});
   property_list_service_send_binary_plist_call (Some 7%positive)
     (Some (request CMD_USER_IDLE_SLEEP 30));
   property_list_service_receive_plist_with_timeout_call (Some 7%positive) 1000;
   sleep_call 20;
   property_list_service_client_free_call (Some 7%positive);
   lockdownd_service_descriptor_free_call (Some {| port := 49152 |});
   idevice_free_call (Some 3%positive)].

(** The state in which that run ends: nothing is live, and the two local
    variables still hold the addresses of what was released. *)
Definition idle_30_final : world :=
  World ∅ ∅ {[ 1%positive := Some 1%positive ]} {[ 1%positive := Some 1%positive ]}
        idle_30_calls.

(** ** Acquisitions and releases among the calls *)











(** The variable [assertion] owns at most one document beyond the live
    documents [base]: it holds NULL and the live documents are [base], or it
    points to one more document. *)
Definition owns_at_most (a : loc) (base : gmap loc plist) (w : world) : Prop :=
  (plist_slots w !! a = Some None /\ plists w = base) \/
  (exists d v, plist_slots w !! a = Some (Some d) /\ base !! d = None /\
               plists w = <[d := v]> base).

(** Among the calls [tr], every stage comes after the success of the stage
    before it and works on what that stage gave: the handshake on the
    device found, the service start on the control connection, the session
    creation on a non-null device and a descriptor with a port above 0, and
    the send on the session created. *)
Definition stages_ordered {transport : Transport} {discovery : Discovery}
    (tr : list event) : Prop :=
  (forall d l,
     In (lockdownd_client_new_with_handshake_call d l) tr ->
     exists u n,
       In (idevice_new_with_options_call u n) tr /\
       idevice_new_with_options_reply u n = (IDEVICE_E_SUCCESS, d)) /\
  (forall c i,
     In (lockdownd_start_service_call c i) tr ->
     exists d l,
       In (lockdownd_client_new_with_handshake_call d l) tr /\
       lockdownd_client_new_with_handshake_reply d l = (LOCKDOWN_E_SUCCESS, c)) /\
  (forall d sv,
     In (property_list_service_client_new_call d sv) tr ->
     d <> None /\
     (exists sd, sv = Some sd /\ 0 < port sd) /\
     exists c i,
       In (lockdownd_start_service_call c i) tr /\
       lockdownd_start_service_reply c i = (LOCKDOWN_E_SUCCESS, sv)) /\
  (forall session document,
     In (property_list_service_send_binary_plist_call session document) tr ->
     exists d sv,
       In (property_list_service_client_new_call d sv) tr /\
       client_new_reply d sv = (PROPERTY_LIST_SERVICE_E_SUCCESS, session)).

(** The state [one_client] after a receive that delivered the document
    ["ack"] into the variable at address 1. *)
Definition one_client_received : world :=
  World {[ 1%positive := {| parent := Some 7%positive |} ]}
        {[ 1%positive := PLIST_STRING "ack" ]}
        {[ 1%positive := None ]} {[ 1%positive := Some 1%positive ]}
        [property_list_service_receive_plist_with_timeout_call (Some 7%positive) 1000].

(** The state in which [idevicepower -h] ends. *)
Definition help_final : world :=
  World ∅ ∅ {[ 1%positive := None ]} {[ 1%positive := None ]}
        [print_usage_call false].

(** * Properties *)

(** ** The translation table *)

(** C5.  [power_error] is a function on the whole transport error domain:
    each of the seven codes it names goes to the service code of the same
    meaning (with RECEIVE_TIMEOUT going to POWER_E_TIMEOUT), and every code
    that is none of the seven goes to POWER_E_UNKNOWN_ERROR. *)
Theorem power_error_total :
  power_error PROPERTY_LIST_SERVICE_E_SUCCESS = POWER_E_SUCCESS /\
  power_error PROPERTY_LIST_SERVICE_E_INVALID_ARG = POWER_E_INVALID_ARG /\
  power_error PROPERTY_LIST_SERVICE_E_PLIST_ERROR = POWER_E_PLIST_ERROR /\
  power_error PROPERTY_LIST_SERVICE_E_MUX_ERROR = POWER_E_MUX_ERROR /\
  power_error PROPERTY_LIST_SERVICE_E_SSL_ERROR = POWER_E_SSL_ERROR /\
  power_error PROPERTY_LIST_SERVICE_E_NOT_ENOUGH_DATA = POWER_E_NOT_ENOUGH_DATA /\
  power_error PROPERTY_LIST_SERVICE_E_RECEIVE_TIMEOUT = POWER_E_TIMEOUT /\
  forall err : property_list_service_error_t,
    ~ In err [PROPERTY_LIST_SERVICE_E_SUCCESS;
              PROPERTY_LIST_SERVICE_E_INVALID_ARG;
              PROPERTY_LIST_SERVICE_E_PLIST_ERROR;
              PROPERTY_LIST_SERVICE_E_MUX_ERROR;
              PROPERTY_LIST_SERVICE_E_SSL_ERROR;
              PROPERTY_LIST_SERVICE_E_NOT_ENOUGH_DATA;
              PROPERTY_LIST_SERVICE_E_RECEIVE_TIMEOUT] ->
    power_error err = POWER_E_UNKNOWN_ERROR.
Proof.
  repeat split.
  intros err Hout.
  destruct err; try reflexivity; exfalso; apply Hout; simpl; tauto.
Qed.

Lemma power_error_total_witness :
  power_error (PROPERTY_LIST_SERVICE_E_OTHER (-256)) = POWER_E_UNKNOWN_ERROR.
Proof.
  apply power_error_total.
  simpl. intros H. repeat (destruct H as [H | H]; [discriminate H |]). exact H.
Defined.

(** Only the transport's success code translates to POWER_E_SUCCESS. *)
Lemma power_error_success (err : property_list_service_error_t) :
  power_error err = POWER_E_SUCCESS <-> err = PROPERTY_LIST_SERVICE_E_SUCCESS.
Proof. destruct err; simpl; split; intros H; congruence. Qed.

(** ** The client operations on an arbitrary state *)

Section ClientFacts.
Context {transport : Transport} {libc : Libc}.

(** What [power_receive_with_timeout] does with a live client, by the
    transport's reply. *)
Lemma power_receive_with_timeout_run (w : world) (a : loc)
    (c : power_client_private) (p : option loc) (timeout_ms : Z) :
  clients w !! a = Some c ->
  power_receive_with_timeout (Some a) p timeout_ms w =
    let e := property_list_service_receive_plist_with_timeout_call (parent c) timeout_ms in
    match receive_plist_with_timeout_reply (parent c) timeout_ms with
    | (PROPERTY_LIST_SERVICE_E_SUCCESS, Some v) =>
        let d := fresh (dom (plists w)) in
        match p with
        | None => Fault
        | Some s =>
            match plist_slots w !! s with
            | None => Fault
            | Some _ =>
                Ret POWER_E_SUCCESS
                    (World (clients w) (<[d := v]> (plists w)) (client_slots w)
                           (<[s := Some d]> (plist_slots w)) (trace w ++ [e]))
            end
        end
    | _ => Ret POWER_E_MUX_ERROR (after_call w e)
    end.
Proof.
  intros Hc.
  unfold power_receive_with_timeout, bind, load_parent. rewrite Hc.
  unfold property_list_service_receive_plist_with_timeout, bind, call.
  destruct (receive_plist_with_timeout_reply (parent c) timeout_ms) as [err [v|]].
  - unfold new_plist, ret; cbn [fst snd plists clients client_slots plist_slots trace].
    destruct (decide _) as [Hbad | Hok].
    + destruct Hbad as [Hbad | Hbad]; [| discriminate Hbad].
      unfold plist_free.
      cbn [fst snd plists clients client_slots plist_slots trace].
      rewrite lookup_insert_eq.
      rewrite delete_insert_id
        by (apply not_elem_of_dom_1, is_fresh).
      destruct err; try reflexivity. exfalso. apply Hbad. reflexivity.
    + destruct err;
        try (exfalso; apply Hok; left; simpl; discriminate).
      unfold store_plist_slot.
      cbn [fst snd plists clients client_slots plist_slots trace].
      destruct p as [s|]; [| reflexivity].
      destruct (plist_slots w !! s); reflexivity.
  - unfold ret; cbn [fst snd].
    destruct (decide _) as [Hbad | Hok].
    + unfold plist_free. destruct err; reflexivity.
    + exfalso. apply Hok. right. reflexivity.
Qed.

(** A NULL or dangling client makes [power_receive_with_timeout] fault at
    [client->parent]. *)
Lemma power_receive_with_timeout_no_client (w : world) (client : power_client_t)
    (p : option loc) (timeout_ms : Z) :
  match client with
  | None => True
  | Some a => clients w !! a = None
  end ->
  power_receive_with_timeout client p timeout_ms w = Fault.
Proof.
  intros H. unfold power_receive_with_timeout, bind, load_parent.
  destruct client as [a|]; [rewrite H |]; reflexivity.
Qed.

(** What [power_send] does with a live client. *)
Lemma power_send_run (w : world) (a : loc) (c : power_client_private)
    (p : plist_t) :
  clients w !! a = Some c ->
  power_send (Some a) p w =
    match p with
    | None =>
        Ret (power_error (send_binary_plist_reply (parent c) None))
            (after_call w (property_list_service_send_binary_plist_call (parent c) None))
    | Some d =>
        match plists w !! d with
        | None => Fault
        | Some v =>
            Ret (power_error (send_binary_plist_reply (parent c) (Some v)))
                (after_call w (property_list_service_send_binary_plist_call
                                 (parent c) (Some v)))
        end
    end.
Proof.
  intros Hc.
  unfold power_send, bind, load_parent. rewrite Hc.
  unfold property_list_service_send_binary_plist, bind, read_plist, call, ret.
  destruct p as [d|].
  - destruct (plists w !! d); [| reflexivity].
    destruct (decide _); reflexivity.
  - destruct (decide _); reflexivity.
Qed.

(** What [power_client_free] does with a live client. *)
Lemma power_client_free_run (w : world) (a : loc) (c : power_client_private) :
  clients w !! a = Some c ->
  power_client_free (Some a) w =
    Ret (power_error (client_free_reply (parent c)))
        (World (delete a (clients w)) (plists w) (client_slots w) (plist_slots w)
               (trace w ++ [property_list_service_client_free_call (parent c)])).
Proof.
  intros Hc.
  unfold power_client_free, bind, load_parent. rewrite Hc.
  unfold property_list_service_client_free, bind, call, ret, free_client.
  cbn [clients]. rewrite Hc. reflexivity.
Qed.

(** What [power_client_new] does when [client] points to a variable. *)
Lemma power_client_new_run (w : world) (device : idevice_t)
    (service : lockdownd_service_descriptor_t) (s : loc) (prior : power_client_t) :
  client_slots w !! s = Some prior ->
  power_client_new device service (Some s) w =
    match device, service with
    | None, _ | _, None => Ret POWER_E_INVALID_ARG (cleared s w)
    | Some _, Some sd =>
        if port sd =? 0 then Ret POWER_E_INVALID_ARG (cleared s w)
        else
          let e := property_list_service_client_new_call device service in
          match client_new_reply device service with
          | (PROPERTY_LIST_SERVICE_E_SUCCESS, session) =>
              if malloc_fails then Fault
              else
                let a := fresh (dom (clients w)) in
                Ret POWER_E_SUCCESS
                    (World (<[a := {| parent := session |}]> (clients w))
                           (plists w) (<[s := Some a]> (client_slots w))
                           (plist_slots w) (trace w ++ [e]))
          | (err, _) => Ret (power_error err) (after_call (cleared s w) e)
          end
    end.
Proof.
  intros Hs.
  unfold power_client_new, bind, store_client_slot. rewrite Hs.
  fold (cleared s w).
  unfold power_client_new_checked, bind, power_client_new_invalid.
  destruct device as [dv|]; [| reflexivity].
  destruct service as [sd|]; [| reflexivity].
  destruct (port sd =? 0); [reflexivity |].
  unfold bind, load_client_slot, ret, cleared at 1.
  cbn [client_slots]. rewrite lookup_insert_eq.
  unfold property_list_service_client_new, bind, call, ret.
  destruct (client_new_reply (Some dv) (Some sd)) as [err session].
  cbn [fst snd].
  destruct err; try reflexivity.
  simpl power_error.
  destruct (decide _) as [Hne | _]; [exfalso; apply Hne; reflexivity |].
  unfold malloc_power_client. destruct malloc_fails; [reflexivity |].
  unfold store_parent, store_client_slot, cleared.
  cbn [clients plists client_slots plist_slots trace].
  rewrite lookup_insert_eq, insert_insert_eq.
  cbn [clients plists client_slots plist_slots trace].
  rewrite lookup_insert_eq, insert_insert_eq.
  reflexivity.
Qed.

End ClientFacts.

(** ** Outcomes of a receive *)

Section ReceiveOutcomes.
Context {transport : Transport} {libc : Libc}.

(** Whatever happens, [power_receive_with_timeout] returns one of two
    codes. *)
Lemma power_receive_with_timeout_codes (w w' : world) (client : power_client_t)
    (p : option loc) (timeout_ms : Z) (code : power_error_t) :
  power_receive_with_timeout client p timeout_ms w = Ret code w' ->
  code = POWER_E_SUCCESS \/ code = POWER_E_MUX_ERROR.
Proof.
  destruct client as [a|];
    [| rewrite power_receive_with_timeout_no_client by exact I; discriminate].
  destruct (clients w !! a) as [c|] eqn:Hc;
    [| rewrite power_receive_with_timeout_no_client by exact Hc; discriminate].
  rewrite (power_receive_with_timeout_run w a c p timeout_ms Hc).
  cbv zeta.
  destruct (receive_plist_with_timeout_reply (parent c) timeout_ms) as [err [v|]];
    destruct err; try (intros H; injection H as <- _; tauto).
  destruct p as [s|]; [| discriminate].
  destruct (plist_slots w !! s); [| discriminate].
  intros H; injection H as <- _; tauto.
Qed.

(** C1.  With a live client: a document delivered with the transport's
    success code gives POWER_E_SUCCESS and the caller's variable points to
    the new document; every reply with another transport code, the receive
    timeout and the plist error among them, gives POWER_E_MUX_ERROR. *)
Theorem power_receive_with_timeout_outcomes (w : world) (a s : loc)
    (c : power_client_private) (prior : plist_t) (timeout_ms : Z) :
  clients w !! a = Some c ->
  plist_slots w !! s = Some prior ->
  let reply := receive_plist_with_timeout_reply (parent c) timeout_ms in
  let e := property_list_service_receive_plist_with_timeout_call (parent c) timeout_ms in
  (forall v, reply = (PROPERTY_LIST_SERVICE_E_SUCCESS, Some v) ->
     power_receive_with_timeout (Some a) (Some s) timeout_ms w =
       Ret POWER_E_SUCCESS
           (World (clients w) (<[fresh (dom (plists w)) := v]> (plists w))
                  (client_slots w)
                  (<[s := Some (fresh (dom (plists w)))]> (plist_slots w))
                  (trace w ++ [e]))) /\
  (fst reply <> PROPERTY_LIST_SERVICE_E_SUCCESS ->
     power_receive_with_timeout (Some a) (Some s) timeout_ms w =
       Ret POWER_E_MUX_ERROR (after_call w e)).
Proof.
  intros Hc Hs reply e.
  rewrite (power_receive_with_timeout_run w a c (Some s) timeout_ms Hc).
  fold reply. fold e. cbv zeta. rewrite Hs.
  split.
  - intros v ->. reflexivity.
  - destruct reply as [err doc]. cbn [fst]. intros Herr.
    destruct err; try reflexivity. contradiction.
Qed.

(** C2.  With a live client, a reply that carries the transport's success
    code and no document gives POWER_E_MUX_ERROR; and whenever
    [power_receive_with_timeout] returns POWER_E_SUCCESS, the caller's
    variable points to a live document. *)
Theorem power_receive_with_timeout_success_has_document (w : world)
    (client : power_client_t) (p : option loc) (timeout_ms : Z) :
  (forall a c,
     client = Some a -> clients w !! a = Some c ->
     receive_plist_with_timeout_reply (parent c) timeout_ms =
       (PROPERTY_LIST_SERVICE_E_SUCCESS, None) ->
     power_receive_with_timeout client p timeout_ms w =
       Ret POWER_E_MUX_ERROR
           (after_call w (property_list_service_receive_plist_with_timeout_call
                            (parent c) timeout_ms))) /\
  (forall w',
     power_receive_with_timeout client p timeout_ms w = Ret POWER_E_SUCCESS w' ->
     exists s d v,
       p = Some s /\ plist_slots w' !! s = Some (Some d) /\ plists w' !! d = Some v).
Proof.
  split.
  - intros a c -> Hc Hreply.
    rewrite (power_receive_with_timeout_run w a c p timeout_ms Hc), Hreply.
    reflexivity.
  - intros w'.
    destruct client as [a|];
      [| rewrite power_receive_with_timeout_no_client by exact I; discriminate].
    destruct (clients w !! a) as [c|] eqn:Hc;
      [| rewrite power_receive_with_timeout_no_client by exact Hc; discriminate].
    rewrite (power_receive_with_timeout_run w a c p timeout_ms Hc).
    cbv zeta.
    destruct (receive_plist_with_timeout_reply (parent c) timeout_ms) as [err [v|]];
      destruct err; try discriminate.
    destruct p as [s|]; [| discriminate].
    destruct (plist_slots w !! s); [| discriminate].
    intros H; injection H as <-.
    exists s, (fresh (dom (plists w))), v.
    cbn [plists plist_slots]. rewrite !lookup_insert_eq. auto.
Qed.

(** C9.  When [power_receive_with_timeout] returns a failure code, the
    caller's variables are as they were, and so are the live documents: a
    document that the transport handed over is live no more. *)
Theorem power_receive_with_timeout_failure_frame (w w' : world)
    (client : power_client_t) (p : option loc) (timeout_ms : Z)
    (code : power_error_t) :
  power_receive_with_timeout client p timeout_ms w = Ret code w' ->
  code <> POWER_E_SUCCESS ->
  plist_slots w' = plist_slots w /\
  plists w' = plists w /\
  plists w' !! fresh (dom (plists w)) = None.
Proof.
  destruct client as [a|];
    [| rewrite power_receive_with_timeout_no_client by exact I; discriminate].
  destruct (clients w !! a) as [c|] eqn:Hc;
    [| rewrite power_receive_with_timeout_no_client by exact Hc; discriminate].
  rewrite (power_receive_with_timeout_run w a c p timeout_ms Hc).
  cbv zeta.
  assert (Hfresh : plists w !! fresh (dom (plists w)) = None)
    by apply not_elem_of_dom_1, is_fresh.
  destruct (receive_plist_with_timeout_reply (parent c) timeout_ms) as [err [v|]];
    destruct err;
    try (intros H _; injection H as _ <-; cbn [after_call plists plist_slots];
         auto).
  destruct p as [s|]; [| discriminate].
  destruct (plist_slots w !! s); [| discriminate].
  intros H Hne; injection H as <- _. contradiction.
Qed.

(** On the success path the caller's variable is written: the counterpart
    of the frame on failure. *)
Lemma power_receive_with_timeout_success_writes (w w' : world)
    (client : power_client_t) (s : loc) (timeout_ms : Z) :
  power_receive_with_timeout client (Some s) timeout_ms w = Ret POWER_E_SUCCESS w' ->
  plist_slots w' = <[s := Some (fresh (dom (plists w)))]> (plist_slots w).
Proof.
  destruct client as [a|];
    [| rewrite power_receive_with_timeout_no_client by exact I; discriminate].
  destruct (clients w !! a) as [c|] eqn:Hc;
    [| rewrite power_receive_with_timeout_no_client by exact Hc; discriminate].
  rewrite (power_receive_with_timeout_run w a c (Some s) timeout_ms Hc).
  cbv zeta.
  destruct (receive_plist_with_timeout_reply (parent c) timeout_ms) as [err [v|]];
    destruct err; try discriminate.
  destruct (plist_slots w !! s); [| discriminate].
  intros H; injection H as <-. reflexivity.
Qed.


End ReceiveOutcomes.

(** ** Argument checks *)

Section ArgumentChecks.
Context {transport : Transport} {libc : Libc}.

(** C3, at the inputs it names.  [power_client_new] with a NULL device or a
    NULL service descriptor returns POWER_E_INVALID_ARG and calls no
    transport primitive.  [power_send] with a NULL document does reach the
    transport and returns the translation of what the transport answers.
    [power_receive_with_timeout] and [power_receive] with a NULL client
    fault at [client->parent] and return nothing. *)
Theorem null_arguments (w : world) :
  (forall device service s prior,
     client_slots w !! s = Some prior ->
     device = None \/ service = None ->
     power_client_new device service (Some s) w =
       Ret POWER_E_INVALID_ARG (cleared s w)) /\
  (forall a c,
     clients w !! a = Some c ->
     power_send (Some a) None w =
       Ret (power_error (send_binary_plist_reply (parent c) None))
           (after_call w (property_list_service_send_binary_plist_call
                            (parent c) None))) /\
  (forall p timeout_ms, power_receive_with_timeout None p timeout_ms w = Fault) /\
  (forall p, power_receive None p w = Fault).
Proof.
  repeat split.
  - intros device service s prior Hs Hnull.
    rewrite (power_client_new_run w device service s prior Hs).
    destruct Hnull as [-> | ->]; [reflexivity |].
    destruct device; reflexivity.
  - intros a c Hc. rewrite (power_send_run w a c None Hc). reflexivity.
Qed.

(** A NULL or dangling client makes [power_send] fault as well. *)
Lemma power_send_no_client (w : world) (p : plist_t) :
  power_send None p w = Fault.
Proof. reflexivity. Qed.

(** C10.  When [client] points to a variable, [power_client_new] is its
    checked part run in the state where the variable holds NULL; the read of
    [*client] in the check gives NULL, so the check is decided by the device
    and the service descriptor alone; and the outcome is the same whatever
    the variable held.  On return the variable holds NULL after a failure
    and the newly allocated client after a success.  It therefore holds what
    it held before the call in two cases only: it held NULL and the call
    fails, or it held the address of a block that was not allocated and
    [malloc] gives out that block for the new client.  A value that is not
    NULL is gone on every error return, and a pointer to a live client is
    gone on every return. *)
Theorem power_client_new_clears_first (w : world) (device : idevice_t)
    (service : lockdownd_service_descriptor_t) (s : loc) (prior : power_client_t) :
  client_slots w !! s = Some prior ->
  power_client_new device service (Some s) w =
    power_client_new_checked device service (Some s) (cleared s w) /\
  load_client_slot (Some s) (cleared s w) = Ret None (cleared s w) /\
  power_client_new_invalid device service (Some s) (cleared s w) =
    Ret (match device, service with
         | Some _, Some sd => port sd =? 0
         | _, _ => true
         end) (cleared s w) /\
  (forall other,
     power_client_new device service (Some s) (with_client_slot s other w) =
       power_client_new device service (Some s) w) /\
  (forall code w',
     power_client_new device service (Some s) w = Ret code w' ->
     (code <> POWER_E_SUCCESS -> client_slots w' !! s = Some None) /\
     (code = POWER_E_SUCCESS ->
      client_slots w' !! s = Some (Some (fresh (dom (clients w)))) /\
      clients w !! fresh (dom (clients w)) = None) /\
     (client_slots w' !! s = Some prior <->
      (code <> POWER_E_SUCCESS /\ prior = None) \/
      (code = POWER_E_SUCCESS /\ prior = Some (fresh (dom (clients w))))) /\
     (forall a0,
        prior = Some a0 ->
        code <> POWER_E_SUCCESS \/ is_Some (clients w !! a0) ->
        client_slots w' !! s <> Some prior)).
Proof.
  intros Hs.
  assert (Hread : load_client_slot (Some s) (cleared s w) = Ret None (cleared s w)).
  { unfold load_client_slot, cleared at 1. cbn [client_slots].
    rewrite lookup_insert_eq. reflexivity. }
  assert (Hfresh : clients w !! fresh (dom (clients w)) = None)
    by apply not_elem_of_dom_1, is_fresh.
  split; [| split; [exact Hread | split; [| split]]].
  - unfold power_client_new, bind, store_client_slot. rewrite Hs. reflexivity.
  - unfold power_client_new_invalid.
    destruct device; [| reflexivity].
    destruct service as [sd|]; [| reflexivity].
    destruct (port sd =? 0); [reflexivity |].
    unfold bind. rewrite Hread. reflexivity.
  - intros other.
    rewrite (power_client_new_run (with_client_slot s other w) device service s other)
      by (cbn [with_client_slot client_slots]; apply lookup_insert_eq).
    rewrite (power_client_new_run w device service s prior Hs).
    unfold cleared, after_call, with_client_slot.
    cbn [clients plists client_slots plist_slots trace].
    rewrite !insert_insert_eq. reflexivity.
  - assert (Hslot : forall code w',
              power_client_new device service (Some s) w = Ret code w' ->
              (code <> POWER_E_SUCCESS -> client_slots w' !! s = Some None) /\
              (code = POWER_E_SUCCESS ->
               client_slots w' !! s = Some (Some (fresh (dom (clients w)))) /\
               clients w !! fresh (dom (clients w)) = None) /\
              (forall a0, prior = Some a0 ->
                 code <> POWER_E_SUCCESS \/ is_Some (clients w !! a0) ->
                 client_slots w' !! s <> Some prior));
      [| intros code w' Hrun;
         destruct (Hslot code w' Hrun) as (Hfailed & Hmade & Hgone);
         split; [exact Hfailed | split; [exact Hmade | split; [| exact Hgone]]];
         destruct (decide (code = POWER_E_SUCCESS)) as [Hcode | Hcode];
         [ destruct (Hmade Hcode) as [Hnow _]; rewrite Hnow; split;
           [ intros Heq; right; split; [exact Hcode | congruence]
           | intros [[Hne _] | [_ Hprior]];
             [contradiction | rewrite Hprior; reflexivity] ]
         | rewrite (Hfailed Hcode); split;
           [ intros Heq; left; split; [exact Hcode | congruence]
           | intros [[_ Hprior] | [Hyes _]];
             [rewrite Hprior; reflexivity | contradiction] ] ] ].
    intros code w'.
    rewrite (power_client_new_run w device service s prior Hs).
    assert (Hcleared : forall t, client_slots (World (clients w) (plists w)
                         (<[s := None]> (client_slots w)) (plist_slots w) t) !! s
                       = Some None)
      by (intros t; cbn [client_slots]; apply lookup_insert_eq).
    assert (Hfail : forall t err,
              Ret (power_error err) (World (clients w) (plists w)
                     (<[s := None]> (client_slots w)) (plist_slots w) t)
                = Ret code w' ->
              power_error err <> POWER_E_SUCCESS ->
              (code <> POWER_E_SUCCESS -> client_slots w' !! s = Some None) /\
              (code = POWER_E_SUCCESS ->
               client_slots w' !! s = Some (Some (fresh (dom (clients w)))) /\
               clients w !! fresh (dom (clients w)) = None) /\
              (forall a0, prior = Some a0 ->
                 code <> POWER_E_SUCCESS \/ is_Some (clients w !! a0) ->
                 client_slots w' !! s <> Some prior)).
    { intros t err H Hne. injection H as <- <-.
      rewrite Hcleared. split; [reflexivity | split].
      + intros Heq. contradiction.
      + intros a0 -> _. discriminate. }
    assert (Hinv : Ret POWER_E_INVALID_ARG (cleared s w) = Ret code w' ->
              (code <> POWER_E_SUCCESS -> client_slots w' !! s = Some None) /\
              (code = POWER_E_SUCCESS ->
               client_slots w' !! s = Some (Some (fresh (dom (clients w)))) /\
               clients w !! fresh (dom (clients w)) = None) /\
              (forall a0, prior = Some a0 ->
                 code <> POWER_E_SUCCESS \/ is_Some (clients w !! a0) ->
                 client_slots w' !! s <> Some prior)).
    { intros H. apply (Hfail (trace w) PROPERTY_LIST_SERVICE_E_INVALID_ARG).
      - exact H.
      - discriminate. }
    destruct device as [dv|]; [| exact Hinv].
    destruct service as [sd|]; [| exact Hinv].
    destruct (port sd =? 0); [exact Hinv |].
    cbv zeta.
    destruct (client_new_reply (Some dv) (Some sd)) as [err session].
    destruct err;
      try (intros H; refine (Hfail _ _ H _); discriminate).
    destruct malloc_fails; [discriminate |].
    intros H; injection H as <- <-.
    cbn [client_slots]. rewrite lookup_insert_eq.
    split; [intros Hne; contradiction | split].
    + intros _. split; [reflexivity | exact Hfresh].
    + intros a0 -> [Hne | [c0 Hlive]]; [contradiction |].
      intros Heq. injection Heq as Heq. rewrite Heq in Hfresh. congruence.
Qed.

End ArgumentChecks.

(** ** The client operations at concrete inputs *)

Lemma power_receive_with_timeout_outcomes_witness :
  power_receive_with_timeout
    (transport := receiving_transport (PROPERTY_LIST_SERVICE_E_RECEIVE_TIMEOUT, None))
    (Some 1%positive) (Some 1%positive) 1000 one_client =
  Ret POWER_E_MUX_ERROR
      (after_call one_client
         (property_list_service_receive_plist_with_timeout_call (Some 7%positive) 1000)).
Proof.
  refine (proj2 (power_receive_with_timeout_outcomes
                   (transport := receiving_transport
                                   (PROPERTY_LIST_SERVICE_E_RECEIVE_TIMEOUT, None))
                   one_client 1%positive 1%positive
                   {| parent := Some 7%positive |} None 1000 _ _) _).
  - vm_compute; reflexivity.
  - vm_compute; reflexivity.
  - simpl. discriminate.
Defined.

(** A payload that the transport could not parse comes back as
    POWER_E_MUX_ERROR too. *)
Example receive_plist_error_is_mux_error :
  returned
    (power_receive_with_timeout
       (transport := receiving_transport (PROPERTY_LIST_SERVICE_E_PLIST_ERROR, None))
       (Some 1%positive) (Some 1%positive) 1000 one_client)
  = Some POWER_E_MUX_ERROR.
Proof. vm_compute; reflexivity. Qed.

Lemma power_receive_with_timeout_success_has_document_witness :
  power_receive_with_timeout
    (transport := receiving_transport (PROPERTY_LIST_SERVICE_E_SUCCESS, None))
    (Some 1%positive) (Some 1%positive) 1000 one_client =
  Ret POWER_E_MUX_ERROR
      (after_call one_client
         (property_list_service_receive_plist_with_timeout_call (Some 7%positive) 1000))
  /\
  exists s d v,
    Some 1%positive = Some s /\
    ({[ 1%positive := Some 1%positive ]} : gmap loc plist_t) !! s = Some (Some d) /\
    ({[ 1%positive := PLIST_STRING "ack" ]} : gmap loc plist) !! d = Some v.
Proof.
  split.
  - apply (proj1 (power_receive_with_timeout_success_has_document
                    (transport := receiving_transport
                                    (PROPERTY_LIST_SERVICE_E_SUCCESS, None))
                    one_client (Some 1%positive) (Some 1%positive) 1000)
             1%positive {| parent := Some 7%positive |}).
    + reflexivity.
    + vm_compute; reflexivity.
    + vm_compute; reflexivity.
  - refine (proj2 (power_receive_with_timeout_success_has_document
                     (transport := good_transport (PLIST_STRING "ack"))
                     one_client (Some 1%positive) (Some 1%positive) 1000)
              (World {[ 1%positive := {| parent := Some 7%positive |} ]}
                     {[ 1%positive := PLIST_STRING "ack" ]}
                     {[ 1%positive := None ]}
                     {[ 1%positive := Some 1%positive ]}
                     [property_list_service_receive_plist_with_timeout_call
                        (Some 7%positive) 1000]) _).
    vm_compute; reflexivity.
Defined.

Lemma power_receive_with_timeout_failure_frame_witness :
  plist_slots
    (after_call populated
       (property_list_service_receive_plist_with_timeout_call (Some 7%positive) 1000))
    = plist_slots populated /\
  plists
    (after_call populated
       (property_list_service_receive_plist_with_timeout_call (Some 7%positive) 1000))
    = plists populated /\
  plists
    (after_call populated
       (property_list_service_receive_plist_with_timeout_call (Some 7%positive) 1000))
    !! fresh (dom (plists populated)) = None.
Proof.
  apply (power_receive_with_timeout_failure_frame
           (transport := receiving_transport
                           (PROPERTY_LIST_SERVICE_E_PLIST_ERROR,
                            Some (PLIST_STRING "broken")))
           populated _ (Some 1%positive) (Some 1%positive) 1000 POWER_E_MUX_ERROR).
  - vm_compute; reflexivity.
  - discriminate.
Defined.

Lemma null_arguments_witness :
  power_client_new (transport := good_transport (PLIST_STRING "ack"))
    (libc := decimal_libc)
    None (Some {| port := 49152 |}) (Some 1%positive) one_client =
    Ret POWER_E_INVALID_ARG (cleared 1%positive one_client) /\
  power_send (transport := good_transport (PLIST_STRING "ack"))
    (Some 1%positive) None one_client =
    Ret POWER_E_SUCCESS
        (after_call one_client
           (property_list_service_send_binary_plist_call (Some 7%positive) None)) /\
  power_receive (transport := good_transport (PLIST_STRING "ack"))
    None (Some 1%positive) one_client = Fault.
Proof.
  destruct (null_arguments (transport := good_transport (PLIST_STRING "ack"))
              (libc := decimal_libc) one_client)
    as (Hnew & Hsend & _ & Hreceive).
  split; [| split].
  - apply (Hnew None (Some {| port := 49152 |}) 1%positive None).
    + vm_compute; reflexivity.
    + left; reflexivity.
  - apply (Hsend 1%positive {| parent := Some 7%positive |}).
    vm_compute; reflexivity.
  - apply Hreceive.
Defined.



(** C10 fails as stated.  [power_client_free] leaves the address of the
    freed client in the variable; [power_client_new] on that variable
    succeeds, [malloc] gives that block out again, and on return the variable
    holds the value it held before the call.  And on an error return a
    variable that held NULL holds NULL as before: the state is unchanged. *)
Lemma power_client_new_keeps_prior_value :
  (power_client_free (transport := good_transport (PLIST_STRING "ack"))
     (Some 1%positive) populated
   = Ret POWER_E_SUCCESS released /\
   client_slots released !! 1%positive = Some (Some 1%positive) /\
   power_client_new (transport := good_transport (PLIST_STRING "ack"))
     (libc := decimal_libc)
     (Some 3%positive) (Some {| port := 49152 |}) (Some 1%positive) released
   = Ret POWER_E_SUCCESS reallocated /\
   client_slots reallocated !! 1%positive = Some (Some 1%positive)) /\
  (client_slots one_client !! 1%positive = Some None /\
   power_client_new (transport := good_transport (PLIST_STRING "ack"))
     (libc := decimal_libc)
     None (Some {| port := 49152 |}) (Some 1%positive) one_client
   = Ret POWER_E_INVALID_ARG one_client).
Proof. vm_compute. repeat split. Qed.

Lemma power_client_new_clears_first_witness :
  (power_client_new (transport := good_transport (PLIST_STRING "ack"))
     (libc := decimal_libc)
     (Some 3%positive) (Some {| port := 49152 |}) (Some 1%positive) populated =
   power_client_new_checked (transport := good_transport (PLIST_STRING "ack"))
     (libc := decimal_libc)
     (Some 3%positive) (Some {| port := 49152 |}) (Some 1%positive)
     (cleared 1%positive populated) /\
   load_client_slot (Some 1%positive) (cleared 1%positive populated) =
     Ret None (cleared 1%positive populated)) /\
  client_slots second_client !! 1%positive = Some (Some 2%positive) /\
  client_slots second_client !! 1%positive <> Some (Some 1%positive).
Proof.
  destruct (power_client_new_clears_first
              (transport := good_transport (PLIST_STRING "ack"))
              (libc := decimal_libc) populated (Some 3%positive) (Some {| port := 49152 |})
              1%positive (Some 1%positive)) as (Hfirst & Hread & _ & _ & Hreturn).
  - vm_compute; reflexivity.
  - destruct (Hreturn POWER_E_SUCCESS second_client) as (_ & Hmade & _ & Hgone).
    + vm_compute; reflexivity.
    + split; [split; [exact Hfirst | exact Hread] | split].
      * exact (proj1 (Hmade eq_refl)).
      * apply (Hgone 1%positive eq_refl). right.
        exists {| parent := Some 7%positive |}. vm_compute; reflexivity.
Defined.

(** ** The steps of the driver on an arbitrary state *)

Ltac world_simpl :=
  cbn [clients plists client_slots plist_slots trace fst snd
       after_call after_calls cleared].

Lemma plist_new_uint_int (t : Z) :
  0 < t < 2 ^ 31 -> plist_new_uint t = PLIST_UINT t.
Proof.
  intros Ht. unfold plist_new_uint. rewrite Z.mod_small by lia. reflexivity.
Qed.

(** [build_request] leaves the request in a new document to which the
    variable [assertion] points. *)
Lemma build_request_run (cmd : cmd_mode) (t : Z) (a : loc) (w : world)
    (prior : plist_t) :
  0 < t < 2 ^ 31 ->
  plist_slots w !! a = Some prior ->
  build_request cmd t a w =
    Ret tt (World (clients w)
                  (<[fresh (dom (plists w)) := request cmd t]> (plists w))
                  (client_slots w)
                  (<[a := Some (fresh (dom (plists w)))]> (plist_slots w))
                  (trace w)).
Proof.
  intros Ht Ha.
  unfold build_request, bind, new_plist, store_plist_slot. world_simpl.
  rewrite Ha. unfold load_plist_slot. world_simpl. rewrite lookup_insert_eq.
  unfold plist_dict_set_item at 1. world_simpl.
  rewrite lookup_insert_eq, insert_insert_eq.
  assert (Htype :
    set_assertion_type cmd (Some (fresh (dom (plists w))))
      (World (clients w)
         (<[fresh (dom (plists w)) :=
              PLIST_DICT [("CommandKey"%string, PLIST_STRING "CommandCreateAssertion")]]>
            (plists w))
         (client_slots w)
         (<[a := Some (fresh (dom (plists w)))]> (plist_slots w)) (trace w))
    = Ret tt
        (World (clients w)
           (<[fresh (dom (plists w)) :=
                PLIST_DICT (("CommandKey"%string, PLIST_STRING "CommandCreateAssertion")
                            :: assertion_type cmd)]> (plists w))
           (client_slots w)
           (<[a := Some (fresh (dom (plists w)))]> (plist_slots w)) (trace w))).
  { destruct cmd; unfold set_assertion_type, plist_dict_set_item, ret; world_simpl;
      rewrite ?lookup_insert_eq, ?insert_insert_eq; reflexivity. }
  cbn [dict_set]. rewrite Htype. clear Htype.
  rewrite (plist_new_uint_int t Ht).
  unfold request.
  destruct cmd; unfold plist_dict_set_item, assertion_type; world_simpl;
    repeat (rewrite lookup_insert_eq, insert_insert_eq; world_simpl);
    reflexivity.
Qed.

(** [hold] sleeps [hold_seconds] of the requested timeout. *)
Lemma hold_run (t : Z) (w : world) :
  0 < t < 2 ^ 31 ->
  hold t w = Ret tt (after_call w (sleep_call (hold_seconds t))).
Proof.
  intros Ht. unfold hold, call, hold_seconds, after_call.
  destruct (Z.gtb_spec t 10); rewrite Z.mod_small by lia; reflexivity.
Qed.

(** The label [cleanup] returns [result] and makes no call. *)
Lemma cleanup_run (a : loc) (result : Z) (w : world) :
  assertion_ok a w ->
  exists w', cleanup a result w = Ret result w' /\ trace w' = trace w.
Proof.
  intros (v & Ha & Hv).
  unfold cleanup, bind, load_plist_slot. rewrite Ha.
  destruct v as [d|].
  - destruct Hv as [doc Hd]. unfold plist_free. rewrite Hd.
    eexists; split; reflexivity.
  - eexists; split; reflexivity.
Qed.

Section DriverSteps.
Context {transport : Transport} {libc : Libc} {discovery : Discovery}.

(** [send_and_receive] with the request in place and a live client. *)
Lemma send_and_receive_run (cmd : cmd_mode) (s : settings) (pc a c d : loc)
    (w : world) :
  client_slots w !! pc = Some (Some c) ->
  clients w !! c = Some {| parent := snd (connected s) |} ->
  plist_slots w !! a = Some (Some d) ->
  plists w !! d = Some (request cmd (timeout s)) ->
  exists w',
    send_and_receive pc a w = Ret (fst (exchange_course cmd s)) w' /\
    clients w' = clients w /\
    client_slots w' = client_slots w /\
    trace w' = trace w ++ snd (exchange_course cmd s) /\
    assertion_ok a w'.
Proof.
  intros Hpc Hc Ha Hd.
  unfold send_and_receive, bind, load_client_slot, load_plist_slot.
  rewrite Hpc, Ha.
  rewrite (power_send_run w c _ (Some d) Hc), Hd. cbn [parent].
  unfold plist_free. world_simpl. rewrite Hd.
  unfold store_plist_slot. world_simpl. rewrite Ha.
  unfold exchange_course. fold (sent cmd s).
  destruct (decide (power_error (sent cmd s) <> POWER_E_SUCCESS)) as [Hbad | Hok].
  - destruct (decide (power_error (sent cmd s) = POWER_E_SUCCESS)); [contradiction |].
    unfold call, ret. world_simpl.
    eexists; split; [reflexivity |]. world_simpl.
    repeat split.
    + rewrite <- app_assoc. reflexivity.
    + exists None. world_simpl. rewrite lookup_insert_eq. auto.
  - destruct (decide (power_error (sent cmd s) = POWER_E_SUCCESS)) as [_ | Hne];
      [| exfalso; apply Hok; exact Hne].
    unfold power_receive.
    match goal with
    | |- context [power_receive_with_timeout (Some c) (Some a) 1000 ?w0] =>
        rewrite (power_receive_with_timeout_run w0 c _ (Some a) 1000 Hc)
    end.
    cbn [parent]. fold (received s). cbv zeta. world_simpl.
    rewrite lookup_insert_eq.
    destruct (received s) as [err [v|]]; destruct err;
      try (destruct (decide _) as [_ | Hne]; [| exfalso; apply Hne; discriminate];
           unfold call, ret; world_simpl;
           eexists; split; [reflexivity |]; world_simpl;
           repeat split;
           [ rewrite <- !app_assoc; reflexivity
           | exists None; world_simpl; rewrite lookup_insert_eq; auto ]).
    destruct (decide _) as [Hne | _]; [exfalso; apply Hne; reflexivity |].
    eexists; split; [reflexivity |]. world_simpl.
    repeat split.
    + rewrite <- !app_assoc. reflexivity.
    + eexists. world_simpl. rewrite lookup_insert_eq. split; [reflexivity |].
      cbv beta iota. rewrite lookup_insert_eq. eauto.
Qed.

End DriverSteps.

Section DriverRuns.
Context {transport : Transport} {libc : Libc} {discovery : Discovery}.

(** [assert_power] makes the calls of [assert_power_course] and yields its
    result. *)
Lemma assert_power_run (cmd : cmd_mode) (s : settings) (pc a : loc) (w : world)
    (prior : power_client_t) :
  0 < timeout s < 2 ^ 31 ->
  client_slots w !! pc = Some prior ->
  plist_slots w !! a = Some None ->
  follows (assert_power cmd s (snd (found s)) (snd (started s)) pc a w) w a
    (assert_power_course cmd s).
Proof.
  intros Ht Hpc Ha.
  assert (Hnull : assertion_ok a w) by (exists None; auto).
  unfold assert_power, assert_power_course.
  assert (Hconn : connected s = client_new_reply (snd (found s)) (snd (started s)))
    by reflexivity.
  destruct (snd (started s)) as [sd|] eqn:Hsvc.
  2:{ unfold bind, call, ret. eexists; split; [reflexivity |]. world_simpl. auto. }
  destruct (Z.gtb_spec (port sd) 0) as [Hport | Hport].
  2:{ unfold bind, call, ret. eexists; split; [reflexivity |]. world_simpl. auto. }
  unfold bind at 1.
  rewrite (power_client_new_run w (snd (found s)) (Some sd) pc prior Hpc).
  destruct (snd (found s)) as [dv|] eqn:Hdev.
  2:{ destruct (decide _) as [_ | Hne]; [| exfalso; apply Hne; discriminate].
      unfold bind, call, ret. eexists; split; [reflexivity |]. world_simpl. auto. }
  replace (port sd =? 0) with false by (symmetry; apply Z.eqb_neq; lia).
  cbv zeta. rewrite <- Hconn.
  destruct (connected s) as [err session] eqn:Hc.
  assert (Hsession : snd (connected s) = session) by (rewrite Hc; reflexivity).
  destruct err;
    try (world_simpl; simpl power_error;
         destruct (decide _) as [_ | Hne]; [| exfalso; apply Hne; discriminate];
         unfold bind, call, ret; eexists; split; [reflexivity |]; world_simpl;
         split; [rewrite <- app_assoc; reflexivity | exact Hnull]).
  destruct malloc_fails; [reflexivity |].
  destruct (decide _) as [Hne | _]; [exfalso; apply Hne; reflexivity |].
  unfold bind at 1.
  match goal with
  | |- context [build_request cmd (timeout s) a ?w1] =>
      rewrite (build_request_run cmd (timeout s) a w1 None Ht Ha)
  end.
  world_simpl. unfold bind at 1.
  match goal with
  | |- context [send_and_receive pc a ?w2] =>
      destruct (send_and_receive_run cmd s pc a (fresh (dom (clients w)))
                  (fresh (dom (plists w))) w2)
        as (w3 & Hrun & Hclients & Hslots & Htrace & Hok)
  end.
  { world_simpl. apply lookup_insert_eq. }
  { world_simpl. rewrite lookup_insert_eq, Hsession. reflexivity. }
  { world_simpl. apply lookup_insert_eq. }
  { world_simpl. apply lookup_insert_eq. }
  cbn [clients plists client_slots plist_slots trace] in Hclients, Hslots, Htrace.
  unfold bind. rewrite Hrun, (hold_run (timeout s) w3 Ht).
  unfold load_client_slot. world_simpl. rewrite Hslots, lookup_insert_eq.
  match goal with
  | |- context [power_client_free (Some ?c) ?w4] =>
      rewrite (power_client_free_run w4 c {| parent := session |})
        by (world_simpl; rewrite Hclients; apply lookup_insert_eq)
  end.
  unfold ret. eexists; split; [reflexivity |]. world_simpl.
  split.
  - rewrite Htrace. rewrite <- !app_assoc. reflexivity.
  - exact Hok.
Qed.

(** [run] makes the calls of [run_course] and returns its status. *)
Lemma run_run (cmd : cmd_mode) (s : settings) (pc a : loc) (w : world)
    (prior : power_client_t) :
  0 < timeout s < 2 ^ 31 ->
  client_slots w !! pc = Some prior ->
  plist_slots w !! a = Some None ->
  finishes (run cmd s pc a w) w (run_course cmd s).
Proof.
  intros Ht Hpc Ha.
  assert (Hnull : forall t, assertion_ok a
            (World (clients w) (plists w) (client_slots w) (plist_slots w) t))
    by (intros t; exists None; auto).
  unfold run, run_course. cbv zeta.
  change (idevice_new_with_options_reply (udid s) (use_network s)) with (found s).
  change (lockdownd_client_new_with_handshake_reply (snd (found s)) TOOL_NAME)
    with (shaken s).
  change (lockdownd_start_service_reply (snd (shaken s))
            "com.apple.mobile.assertion_agent") with (started s).
  unfold bind at 1. unfold call at 1.
  destruct (decide (IDEVICE_E_SUCCESS <> fst (found s))) as [Hfound | Hfound].
  { unfold bind, call.
    match goal with
    | |- context [cleanup a ?r ?w0] =>
        destruct (cleanup_run a r w0 (Hnull _)) as (w' & Hrun & Htrace)
    end.
    rewrite Hrun. exists w'. split; [reflexivity |].
    rewrite Htrace. world_simpl. rewrite <- !app_assoc. reflexivity. }
  unfold bind at 1. unfold call at 1.
  destruct (decide (LOCKDOWN_E_SUCCESS <> fst (shaken s))) as [Hshaken | Hshaken].
  { unfold bind, call.
    match goal with
    | |- context [cleanup a ?r ?w0] =>
        destruct (cleanup_run a r w0 (Hnull _)) as (w' & Hrun & Htrace)
    end.
    rewrite Hrun. exists w'. split; [reflexivity |].
    rewrite Htrace. world_simpl. rewrite <- !app_assoc. reflexivity. }
  unfold bind at 1. unfold call at 1.
  unfold bind at 1. unfold call at 1.
  destruct (decide (fst (started s) <> LOCKDOWN_E_SUCCESS)) as [Hstarted | Hstarted].
  { unfold bind, call.
    match goal with
    | |- context [cleanup a ?r ?w0] =>
        destruct (cleanup_run a r w0 (Hnull _)) as (w' & Hrun & Htrace)
    end.
    rewrite Hrun. exists w'. split; [reflexivity |].
    rewrite Htrace. world_simpl. rewrite <- !app_assoc. reflexivity. }
  unfold bind at 1. world_simpl.
  match goal with
  | |- context [assert_power cmd s _ _ pc a ?w0] =>
      pose proof (assert_power_run cmd s pc a w0 prior Ht Hpc Ha) as Hpower
  end.
  unfold follows in Hpower.
  destruct (assert_power_course cmd s) as [[result es]|].
  2:{ rewrite Hpower. reflexivity. }
  destruct Hpower as (w1 & Hrun1 & Htrace1 & Hok1).
  rewrite Hrun1.
  assert (Hfree : exists w2,
            (match snd (started s) with
             | Some _ => call (lockdownd_service_descriptor_free_call (snd (started s)))
             | None => ret tt
             end) w1 = Ret tt w2 /\
            assertion_ok a w2 /\
            trace w2 = trace w1 ++
                       match snd (started s) with
                       | Some _ => [lockdownd_service_descriptor_free_call
                                      (snd (started s))]
                       | None => []
                       end).
  { destruct (snd (started s)).
    - eexists; split; [reflexivity |]. split; [exact Hok1 | reflexivity].
    - exists w1. split; [reflexivity |]. split; [exact Hok1 |].
      rewrite app_nil_r. reflexivity. }
  destruct Hfree as (w2 & Hrun2 & Hok2 & Htrace2).
  unfold bind at 1. rewrite Hrun2.
  unfold bind, call.
  match goal with
  | |- context [cleanup a ?r ?w0] =>
      destruct (cleanup_run a r w0 Hok2) as (w' & Hrun & Htrace)
  end.
  rewrite Hrun. exists w'. split; [reflexivity |].
  rewrite Htrace. world_simpl. rewrite Htrace2, Htrace1. world_simpl.
  rewrite <- !app_assoc. reflexivity.
Qed.

End DriverRuns.

(** ** The option loop and [main] *)

Section MainRuns.
Context {transport : Transport} {libc : Libc} {discovery : Discovery}.

Lemma two_calls_run {A} (e1 e2 : event) (r : A) (w : world) :
  (call e1 ;; call e2 ;; ret r) w = Ret r (after_calls w [e1; e2]).
Proof.
  unfold bind, call, ret, after_calls. world_simpl.
  rewrite <- app_assoc. reflexivity.
Qed.

(** The option loop only prints and sets the debug level; it never faults,
    and what it returns does not depend on the state. *)
Lemma parse_options_run (opts : list (ascii * string)) :
  forall s : settings,
    0 < timeout s < 2 ^ 31 ->
    exists r es,
      (forall w, parse_options opts s w = Ret r (after_calls w es)) /\
      Forall (fun e => console_event e = true) es /\
      option_loop_ends r es.
Proof.
  induction opts as [| [c optarg] rest IH]; intros s Hs.
  - exists (Parsed s), [].
    split; [| split; [constructor |]].
    + intros w. unfold after_calls. rewrite app_nil_r. destruct w; reflexivity.
    + split; [| exact Hs].
      split; [intros [[] | []] | discriminate].
  - cbn [parse_options].
    assert (Hstop : forall (status : Z) (es : list event),
              Forall (fun e => console_event e = true) es ->
              status = 2 ->
              In (print_usage_call true) es ->
              ~ In (print_usage_call false) es ->
              ~ In (printf_call false "%s %s\n") es ->
              Forall (fun e => console_event e = true) es /\
              option_loop_ends (Exit status) es).
    { intros status es Hes -> Hin Hno1 Hno2. split; [exact Hes |].
      split; [| right; auto].
      split; [intros [H | H]; contradiction | discriminate]. }
    assert (Hnext : forall (s' : settings) (pre : list event),
              0 < timeout s' < 2 ^ 31 ->
              Forall (fun e => console_event e = true) pre ->
              ~ In (print_usage_call false) pre ->
              ~ In (printf_call false "%s %s\n") pre ->
              exists r es,
                (forall w, parse_options rest s' (after_calls w pre)
                           = Ret r (after_calls w es)) /\
                Forall (fun e => console_event e = true) es /\
                option_loop_ends r es).
    { intros s' pre Hs' Hpre Hno1 Hno2.
      destruct (IH s' Hs') as (r & es & Hrun & Hes & Hends).
      exists r, (pre ++ es).
      split; [| split].
      - intros w. rewrite Hrun. unfold after_calls. world_simpl.
        rewrite <- app_assoc. reflexivity.
      - apply Forall_app; auto.
      - destruct Hends as [Hhelp Hr]. split.
        + rewrite <- Hhelp. rewrite !in_app_iff. tauto.
        + destruct r; [| exact Hr].
          destruct Hr as [H0 | [H2 Hin]]; [left; exact H0 |].
          right. split; [exact H2 |]. apply in_app_iff. right. exact Hin. }
    destruct (Ascii.eqb c "d").
    { destruct (Hnext s [idevice_set_debug_level_call 1] Hs) as (r & es & Hrun & H).
      - repeat constructor.
      - intros [H | []]; discriminate H.
      - intros [H | []]; discriminate H.
      - exists r, es. split; [| exact H].
        intros w. unfold bind, call. exact (Hrun w). }
    destruct (Ascii.eqb c "u").
    { destruct (String.eqb optarg "").
      - eexists (Exit 2), [_; _]. split; [intros w; apply two_calls_run |].
        apply Hstop; [repeat constructor | reflexivity | simpl; auto | |];
          intros [H | [H | []]]; discriminate H.
      - destruct (Hnext {| udid := Some optarg; use_network := use_network s;
                           timeout := timeout s |} [] Hs) as (r & es & Hrun & H);
          [constructor | intros [] | intros [] |].
        exists r, es. split; [| exact H].
        intros w. rewrite <- (Hrun w). unfold after_calls. rewrite app_nil_r.
        destruct w; reflexivity. }
    destruct (Ascii.eqb c "t").
    { destruct (String.eqb optarg "").
      - eexists (Exit 2), [_; _]. split; [intros w; apply two_calls_run |].
        apply Hstop; [repeat constructor | reflexivity | simpl; auto | |];
          intros [H | [H | []]]; discriminate H.
      - cbv zeta. destruct (Z.leb_spec (atoi optarg) 0) as [Hle | Hgt].
        + eexists (Exit 2), [_; _]. split; [intros w; apply two_calls_run |].
          apply Hstop; [repeat constructor | reflexivity | simpl; auto | |];
            intros [H | [H | []]]; discriminate H.
        + destruct (Hnext {| udid := udid s; use_network := use_network s;
                             timeout := atoi optarg |} []) as (r & es & Hrun & H);
            [cbn [timeout]; pose proof (atoi_int optarg); lia
            | constructor | intros [] | intros [] |].
          exists r, es. split; [| exact H].
          intros w. rewrite <- (Hrun w). unfold after_calls. rewrite app_nil_r.
          destruct w; reflexivity. }
    destruct (Ascii.eqb c "n").
    { destruct (Hnext {| udid := udid s; use_network := true;
                         timeout := timeout s |} [] Hs) as (r & es & Hrun & H);
        [constructor | intros [] | intros [] |].
      exists r, es. split; [| exact H].
      intros w. rewrite <- (Hrun w). unfold after_calls. rewrite app_nil_r.
      destruct w; reflexivity. }
    destruct (Ascii.eqb c "h").
    { eexists (Exit 0), [_]. split; [intros w; reflexivity |].
      split; [repeat constructor |].
      split; [| left; reflexivity].
      split; [reflexivity | intros _; left; left; reflexivity]. }
    destruct (Ascii.eqb c "v").
    { eexists (Exit 0), [_]. split; [intros w; reflexivity |].
      split; [repeat constructor |].
      split; [| left; reflexivity].
      split; [reflexivity | intros _; right; left; reflexivity]. }
    eexists (Exit 2), [_]. split; [intros w; reflexivity |].
    apply Hstop; [repeat constructor | reflexivity | simpl; auto | |];
      intros [H | []]; discriminate H.
Qed.

(** [main], started as a process starts, makes the calls of [main_course]
    and exits with its status. *)
Lemma main_run (opts : list (ascii * string)) (args : list string) :
  exists r es,
    (forall w, parse_options opts default_settings w = Ret r (after_calls w es)) /\
    Forall (fun e => console_event e = true) es /\
    option_loop_ends r es /\
    finishes (main opts args initial_world) initial_world (main_course r es args).
Proof.
  destruct (parse_options_run opts default_settings) as (r & es & Hrun & Hes & Hends);
    [cbn [timeout default_settings]; lia |].
  exists r, es. split; [exact Hrun |]. split; [exact Hes |]. split; [exact Hends |].
  unfold main, bind, local_power_client, local_plist. world_simpl.
  fold default_settings. rewrite Hrun.
  set (pc := fresh (dom (client_slots initial_world))).
  set (a := fresh (dom (plist_slots initial_world))).
  set (w1 := after_calls _ es).
  assert (Htrace1 : trace w1 = trace initial_world ++ es) by reflexivity.
  assert (Hpc : client_slots w1 !! pc = Some None) by apply lookup_insert_eq.
  assert (Ha : plist_slots w1 !! a = Some None) by apply lookup_insert_eq.
  assert (Hnull : assertion_ok a w1) by (exists None; auto).
  clearbody w1.
  unfold main_course.
  destruct r as [status | s].
  { exists w1. split; [reflexivity | exact Htrace1]. }
  destruct args as [| arg rest].
  { eexists. split.
    - apply (two_calls_run (printf_call true "ERROR: No command specified\n")
               (print_usage_call true) 2 w1).
    - unfold after_calls. world_simpl. rewrite Htrace1, <- app_assoc. reflexivity. }
  assert (Hrun_cmd : forall cmd,
            finishes (run cmd s pc a w1) initial_world
              match run_course cmd s with
              | None => None
              | Some (status, es') => Some (status, es ++ es')
              end).
  { intros cmd.
    pose proof (run_run cmd s pc a w1 None (proj2 Hends) Hpc Ha) as H.
    unfold finishes in *.
    destruct (run_course cmd s) as [[status es']|]; [| exact H].
    destruct H as (w' & H & Htrace). exists w'. split; [exact H |].
    rewrite Htrace, Htrace1, <- app_assoc. reflexivity. }
  destruct (command arg); try apply Hrun_cmd.
  unfold bind, call.
  match goal with
  | |- context [cleanup a ?r ?w0] =>
      destruct (cleanup_run a r w0 Hnull) as (w' & Hrun' & Htrace)
  end.
  rewrite Hrun'. exists w'. split; [reflexivity |].
  rewrite Htrace. world_simpl. rewrite Htrace1, <- !app_assoc. reflexivity.
Qed.

End MainRuns.

(** ** The courses, case by case *)

Section Courses.
Context {transport : Transport} {libc : Libc} {discovery : Discovery}.

(** The three ways the exchange can go. *)
Lemma exchange_course_cases (cmd : cmd_mode) (s : settings) :
  let e_send :=
    property_list_service_send_binary_plist_call (snd (connected s))
      (Some (request cmd (timeout s))) in
  let e_receive :=
    property_list_service_receive_plist_with_timeout_call (snd (connected s)) 1000 in
  (power_error (sent cmd s) <> POWER_E_SUCCESS /\
   exchange_course cmd s =
     (EXIT_FAILURE,
      [e_send; printf_call false "ERROR: Could not send power assertion: %d\n"])) \/
  (power_error (sent cmd s) = POWER_E_SUCCESS /\
   (forall v, received s <> (PROPERTY_LIST_SERVICE_E_SUCCESS, Some v)) /\
   exchange_course cmd s =
     (EXIT_FAILURE,
      [e_send; e_receive;
       printf_call false "ERROR: Could not receive power assertion: %d\n"])) \/
  (power_error (sent cmd s) = POWER_E_SUCCESS /\
   (exists v, received s = (PROPERTY_LIST_SERVICE_E_SUCCESS, Some v)) /\
   exchange_course cmd s = (EXIT_SUCCESS, [e_send; e_receive])).
Proof.
  intros e_send e_receive. unfold exchange_course. fold e_send e_receive.
  destruct (decide (power_error (sent cmd s) = POWER_E_SUCCESS)) as [Hok | Hbad];
    [right | left; auto].
  destruct (received s) as [err [v|]]; destruct err;
    try (left; split; [exact Hok |]; split; [intros v'; congruence | reflexivity]).
  right. split; [exact Hok |]. split; [exists v |]; reflexivity.
Qed.

(** The exchange makes no call but its send, its receive and a diagnostic. *)
Lemma exchange_course_events (cmd : cmd_mode) (s : settings) :
  Forall (fun e => help_event e = false /\
                   match e with sleep_call _ => False | _ => True end)
         (snd (exchange_course cmd s)).
Proof.
  destruct (exchange_course_cases cmd s) as [[_ ->] | [(_ & _ & ->) | (_ & _ & ->)]];
    cbn [snd]; repeat constructor.
Qed.

(** A run that reaches the exchange goes through it and through the hold
    and the release, whatever the exchange gives. *)
Lemma run_course_reaches (cmd : cmd_mode) (s : settings) :
  reaches_exchange s ->
  run_course cmd s =
    Some (fst (exchange_course cmd s),
          calls_before_exchange s ++ snd (exchange_course cmd s)
          ++ calls_after_exchange s).
Proof.
  intros (Hfound & Hdevice & Hshaken & Hstarted & (sd & Hservice & Hport)
          & Hconnected & Hmalloc).
  unfold run_course, assert_power_course. cbv zeta.
  destruct (decide (IDEVICE_E_SUCCESS <> fst (found s))); [congruence |].
  destruct (decide (LOCKDOWN_E_SUCCESS <> fst (shaken s))); [congruence |].
  destruct (decide (fst (started s) <> LOCKDOWN_E_SUCCESS)); [congruence |].
  rewrite Hservice.
  replace (port sd >? 0) with true by (symmetry; apply Z.gtb_lt; exact Hport).
  destruct (snd (found s)) as [dv|] eqn:Hdv; [| congruence].
  unfold calls_before_exchange, calls_after_exchange.
  rewrite Hservice, Hdv.
  destruct (connected s) as [err session] eqn:Hc.
  cbn [fst] in Hconnected. subst err. rewrite Hmalloc.
  cbn [snd app]. rewrite <- ?app_assoc. reflexivity.
Qed.

(** A run that does not reach the exchange, and does not fault, exits with
    EXIT_FAILURE before any send, receive or sleep. *)
Lemma run_course_stops (cmd : cmd_mode) (s : settings) :
  match run_course cmd s with
  | None => malloc_fails = true
  | Some (status, es) =>
      reaches_exchange s \/
      (status = EXIT_FAILURE /\
       Forall (fun e => exchange_event e = false /\ help_event e = false /\
                        match e with sleep_call _ => False | _ => True end) es)
  end.
Proof.
  unfold run_course, assert_power_course. cbv zeta.
  destruct (decide (IDEVICE_E_SUCCESS <> fst (found s))) as [| Hfound].
  { right. split; [reflexivity |]. destruct (udid s); repeat constructor. }
  destruct (decide (LOCKDOWN_E_SUCCESS <> fst (shaken s))) as [| Hshaken].
  { right. split; [reflexivity |]. repeat constructor. }
  destruct (decide (fst (started s) <> LOCKDOWN_E_SUCCESS)) as [| Hstarted].
  { right. split; [reflexivity |]. repeat constructor. }
  destruct (snd (started s)) as [sd|] eqn:Hservice.
  2:{ right. split; [reflexivity |]. repeat constructor. }
  destruct (Z.gtb_spec (port sd) 0) as [Hport | Hport].
  2:{ right. split; [reflexivity |]. repeat constructor. }
  destruct (snd (found s)) as [dv|] eqn:Hdv.
  2:{ right. split; [reflexivity |]. repeat constructor. }
  assert (Hconn : connected s = client_new_reply (Some dv) (Some sd))
    by (unfold connected; rewrite Hdv, Hservice; reflexivity).
  destruct (connected s) as [err session] eqn:Hc.
  destruct err; try (right; split; [reflexivity |]; repeat constructor).
  destruct malloc_fails eqn:Hmalloc; [reflexivity |].
  left. unfold reaches_exchange.
  rewrite Hdv, Hservice.
  repeat split; try congruence.
  - destruct (decide (fst (found s) = IDEVICE_E_SUCCESS)); [assumption |].
    exfalso. apply Hfound. congruence.
  - destruct (decide (fst (shaken s) = LOCKDOWN_E_SUCCESS)); [assumption |].
    exfalso. apply Hshaken. congruence.
  - destruct (decide (fst (started s) = LOCKDOWN_E_SUCCESS)); [assumption |].
    exfalso. apply Hstarted. assumption.
  - exists sd. split; [reflexivity | exact Hport].
  - rewrite Hc. reflexivity.
Qed.

End Courses.

(** ** The driver from the command line to the exit status *)

Section MainFacts.
Context {transport : Transport} {libc : Libc} {discovery : Discovery}.

Lemma console_member (es : list event) (e : event) :
  Forall (fun e => console_event e = true) es ->
  In e es ->
  console_event e = true.
Proof. intros Hes Hin. rewrite List.Forall_forall in Hes. exact (Hes e Hin). Qed.

(** Unless the option loop returns 0, it prints neither the help text nor
    the version. *)
Lemma no_help_unless_exit_0 (r : parsed) (es : list event) :
  option_loop_ends r es ->
  r <> Exit 0 ->
  forall e, In e es -> help_event e = true -> False.
Proof.
  intros [Hhelp _] Hr e Hin He. apply Hr, Hhelp.
  destruct e as [| | | | | | | | | | | | [] | [] format]; try discriminate He.
  - left. exact Hin.
  - cbn [help_event] in He. apply String.eqb_eq in He. subst format.
    right. exact Hin.
Qed.

(** With the options parsed into [s], a known command and every stage up to
    the client creation successful, [main] returns what the exchange gives,
    after the calls before the exchange, the exchange, and the calls after
    it. *)
Lemma main_reaches (opts : list (ascii * string)) (args : list string)
    (s : settings) (arg : string) (rest : list string) :
  returned (parse_options opts default_settings initial_world) = Some (Parsed s) ->
  args = arg :: rest ->
  command arg <> CMD_NONE ->
  reaches_exchange s ->
  0 < timeout s < 2 ^ 31 /\
  exists es w',
    Forall (fun e => console_event e = true) es /\
    ~ (exists e, In e es /\ help_event e = true) /\
    main opts args initial_world = Ret (fst (exchange_course (command arg) s)) w' /\
    trace w' =
      es ++ calls_before_exchange s ++ snd (exchange_course (command arg) s)
      ++ calls_after_exchange s.
Proof.
  intros Hparsed -> Hcmd Hreach.
  destruct (main_run opts (arg :: rest)) as (r & es & Hrun & Hes & Hends & Hfin).
  rewrite (Hrun initial_world) in Hparsed. injection Hparsed as ->.
  destruct Hends as [Hhelp Hs]. split; [exact Hs |].
  unfold finishes, main_course in Hfin.
  assert (Hcourse :
            match run_course (command arg) s with
            | None => None
            | Some (status, es') => Some (status, es ++ es')
            end
            = Some (fst (exchange_course (command arg) s),
                    es ++ calls_before_exchange s
                    ++ snd (exchange_course (command arg) s)
                    ++ calls_after_exchange s))
    by (rewrite (run_course_reaches (command arg) s Hreach); reflexivity).
  assert (Hnohelp : ~ (exists e, In e es /\ help_event e = true)).
  { intros (e & Hin & He).
    apply (no_help_unless_exit_0 (Parsed s) es (conj Hhelp Hs) ltac:(discriminate)
             e Hin) in He.
    exact He. }
  destruct (command arg) eqn:Harg; [contradiction | | |];
    rewrite Hcourse in Hfin; destruct Hfin as (w' & Hmain & Htrace);
    exists es, w'; auto.
Qed.

(** C6.  When the options parse into settings with timeout [t], the command
    is known and the run reaches the exchange, then, whatever the send and
    the receive give, [main] returns and sleeps exactly once, after the send
    and with no send or receive after it: [t - 10] seconds when [t] exceeds
    10 and [t] seconds otherwise; and [t] is positive. *)
Theorem hold_after_exchange (opts : list (ascii * string)) (args : list string)
    (s : settings) (arg : string) (rest : list string) :
  returned (parse_options opts default_settings initial_world) = Some (Parsed s) ->
  args = arg :: rest ->
  command arg <> CMD_NONE ->
  reaches_exchange s ->
  0 < timeout s /\
  exists status w' before after,
    main opts args initial_world = Ret status w' /\
    trace w' =
      before
      ++ sleep_call (if timeout s >? 10 then timeout s - 10 else timeout s)
      :: after /\
    In (property_list_service_send_binary_plist_call (snd (connected s))
          (Some (request (command arg) (timeout s)))) before /\
    Forall (fun e => exchange_event e = false) after /\
    (forall n, ~ In (sleep_call n) before) /\
    (forall n, ~ In (sleep_call n) after).
Proof.
  intros Hparsed Hargs Hcmd Hreach.
  destruct (main_reaches opts args s arg rest Hparsed Hargs Hcmd Hreach)
    as (Ht & es & w' & Hes & _ & Hmain & Htrace).
  split; [lia |].
  exists (fst (exchange_course (command arg) s)), w',
    (es ++ calls_before_exchange s ++ snd (exchange_course (command arg) s)),
    (tl (calls_after_exchange s)).
  split; [exact Hmain |]. split.
  { rewrite Htrace. unfold calls_after_exchange, hold_seconds. cbn [tl].
    rewrite <- !app_assoc. reflexivity. }
  split.
  { apply in_app_iff. right. apply in_app_iff. right.
    destruct (exchange_course_cases (command arg) s)
      as [[_ ->] | [(_ & _ & ->) | (_ & _ & ->)]]; left; reflexivity. }
  split; [repeat constructor |].
  split.
  - intros n Hin. rewrite !in_app_iff in Hin.
    destruct Hin as [Hin | [Hin | Hin]].
    + apply (console_member es _ Hes) in Hin. discriminate Hin.
    + cbn in Hin. decompose [or] Hin; try discriminate; contradiction.
    + pose proof (exchange_course_events (command arg) s) as Hexch.
      rewrite List.Forall_forall in Hexch. destruct (Hexch _ Hin) as [_ []].
  - intros n Hin. cbn in Hin. decompose [or] Hin; try discriminate; contradiction.
Qed.

(** C8.  When the options parse into settings with timeout 30, the command
    is [idle] and the run reaches the exchange, [main] returns and sends one
    document: the dictionary with CommandKey, AssertionTypeKey,
    AssertionNameKey, AssertionTimeoutKey and AssertionDetailKey given
    below. *)
Theorem idle_request (opts : list (ascii * string)) (args : list string)
    (s : settings) (rest : list string) :
  returned (parse_options opts default_settings initial_world) = Some (Parsed s) ->
  timeout s = 30 ->
  args = "idle"%string :: rest ->
  reaches_exchange s ->
  exists status w' before after,
    main opts args initial_world = Ret status w' /\
    trace w' =
      before
      ++ property_list_service_send_binary_plist_call (snd (connected s))
           (Some (PLIST_DICT
                    [("CommandKey", PLIST_STRING "CommandCreateAssertion");
                     ("AssertionTypeKey", PLIST_STRING "PreventUserIdleSystemSleep");
                     ("AssertionNameKey", PLIST_STRING "idevicepower");
                     ("AssertionTimeoutKey", PLIST_UINT 30);
                     ("AssertionDetailKey", PLIST_STRING "power update")]%string))
      :: after /\
    (forall session document,
       ~ In (property_list_service_send_binary_plist_call session document) before) /\
    (forall session document,
       ~ In (property_list_service_send_binary_plist_call session document) after).
Proof.
  intros Hparsed Ht Hargs Hreach.
  destruct (main_reaches opts args s "idle"%string rest Hparsed Hargs)
    as (_ & es & w' & Hes & _ & Hmain & Htrace);
    [discriminate | exact Hreach |].
  change (command "idle") with CMD_USER_IDLE_SLEEP in Hmain, Htrace.
  exists (fst (exchange_course CMD_USER_IDLE_SLEEP s)), w',
    (es ++ calls_before_exchange s),
    (tl (snd (exchange_course CMD_USER_IDLE_SLEEP s)) ++ calls_after_exchange s).
  split; [exact Hmain |]. split.
  { rewrite Htrace.
    destruct (exchange_course_cases CMD_USER_IDLE_SLEEP s)
      as [[_ ->] | [(_ & _ & ->) | (_ & _ & ->)]];
      rewrite Ht; cbn [snd tl]; rewrite <- !app_assoc; reflexivity. }
  split.
  - intros session document Hin. rewrite in_app_iff in Hin.
    destruct Hin as [Hin | Hin].
    + apply (console_member es _ Hes) in Hin. discriminate Hin.
    + cbn in Hin. decompose [or] Hin; try discriminate; contradiction.
  - intros session document Hin. rewrite in_app_iff in Hin.
    destruct Hin as [Hin | Hin].
    + destruct (exchange_course_cases CMD_USER_IDLE_SLEEP s)
        as [[_ Heq] | [(_ & _ & Heq) | (_ & _ & Heq)]];
        rewrite Heq in Hin; cbn in Hin;
        decompose [or] Hin; try discriminate; contradiction.
    + cbn in Hin. decompose [or] Hin; try discriminate; contradiction.
Qed.

End MainFacts.

(** ** The exit status *)

Section ExitStatus.
Context {transport : Transport} {libc : Libc} {discovery : Discovery}.

(** Takes a hypothesis of membership in a list of calls apart, and closes
    the cases that equate different calls or put a call to a collaborator
    among console output. *)
Ltac in_cases H :=
  rewrite ?in_app_iff in H;
  cbn [In calls_before_exchange calls_after_exchange] in H;
  decompose [or] H;
  repeat match goal with
         | F : False |- _ => destruct F
         | E : _ = _ |- _ => discriminate E
         | I : In ?e ?es, C : Forall (fun e => console_event e = true) ?es |- _ =>
             apply (console_member es e C) in I; discriminate I
         end.

(** Two calls of one primitive are equal: so are their arguments. *)
Ltac same_call :=
  match goal with
  | E : ?c _ _ = ?c _ _ |- _ => injection E as ? ?; subst
  end.

(** The help text or the version among the calls of an option loop that
    did not return 0. *)
Ltac no_help H :=
  match goal with
  | I : In _ _ |- _ => exact (H _ I eq_refl)
  end.

(** A run that only prints, and stops with a status other than 0 or with
    the help text or the version. *)
Lemma console_explained (es : list event) (status : Z) :
  Forall (fun e => console_event e = true) es ->
  (In (print_usage_call false) es \/ In (printf_call false "%s %s\n") es
   <-> status = 0) ->
  status_explained status es.
Proof.
  intros Hes Hhelp. unfold status_explained.
  split; [| repeat split]; try (intros ? ? Hin; in_cases Hin).
  split.
  - intros H0. left. apply Hhelp. exact H0.
  - intros [H | [(session & document & Hin & _) _]]; [apply Hhelp; exact H |].
    in_cases Hin.
Qed.

(** A run that stops before the exchange with a status other than 0. *)
Lemma stopped_explained (es es' : list event) (status : Z) :
  Forall (fun e => console_event e = true) es ->
  (forall e, In e es -> help_event e = true -> False) ->
  Forall (fun e => exchange_event e = false /\ help_event e = false) es' ->
  status <> 0 ->
  status_explained status (es ++ es').
Proof.
  intros Hes Hnohelp Hes' Hstatus. unfold status_explained.
  rewrite List.Forall_forall in Hes'.
  split; [| repeat split]; try (intros; exact Hstatus).
  split; [intros H0; contradiction |].
  intros [[Hin | Hin] | [(session & document & Hin & _) _]];
    exfalso; apply in_app_iff in Hin; destruct Hin as [Hin | Hin].
  - exact (Hnohelp _ Hin eq_refl).
  - destruct (Hes' _ Hin) as [_ H]. discriminate H.
  - exact (Hnohelp _ Hin eq_refl).
  - destruct (Hes' _ Hin) as [_ H]. discriminate H.
  - in_cases Hin.
  - destruct (Hes' _ Hin) as [H _]. discriminate H.
Qed.

(** A run that reaches the exchange. *)
Lemma reaching_explained (es : list event) (cmd : cmd_mode) (s : settings) :
  Forall (fun e => console_event e = true) es ->
  (forall e, In e es -> help_event e = true -> False) ->
  reaches_exchange s ->
  status_explained (fst (exchange_course cmd s))
    (es ++ calls_before_exchange s ++ snd (exchange_course cmd s)
     ++ calls_after_exchange s).
Proof.
  intros Hes Hnohelp
    (Hfound & Hdevice & Hshaken & Hstarted & _ & Hconnected & _).
  unfold status_explained.
  destruct (exchange_course_cases cmd s)
    as [[Hsend ->] | [(Hsend & Hreceive & ->) | (Hsend & [v Hreceive] & ->)]];
    cbn [fst snd].
  - split; [| repeat split]; try (intros; discriminate).
    split; [discriminate |].
    intros [[Hin | Hin] | [(session & document & Hin & Hok) _]]; exfalso.
    + in_cases Hin; no_help Hnohelp.
    + in_cases Hin; no_help Hnohelp.
    + in_cases Hin; same_call. exact (Hsend Hok).
  - split; [| repeat split]; try (intros; discriminate).
    split; [discriminate |].
    intros [[Hin | Hin] | [_ (session & timeout_ms & v & Hin & Hok)]]; exfalso.
    + in_cases Hin; no_help Hnohelp.
    + in_cases Hin; no_help Hnohelp.
    + in_cases Hin; same_call. exact (Hreceive v Hok).
  - split; [| repeat split].
    + split; [| reflexivity]. intros _. right. split.
      * exists (snd (connected s)), (Some (request cmd (timeout s))).
        split; [| exact Hsend].
        apply in_app_iff; right. apply in_app_iff; right. left. reflexivity.
      * exists (snd (connected s)), 1000, v.
        split; [| exact Hreceive].
        apply in_app_iff; right. apply in_app_iff; right. right. left. reflexivity.
    + intros u n Hin Hbad. exfalso. in_cases Hin; same_call. exact (Hbad Hfound).
    + intros d l Hin Hbad. exfalso. in_cases Hin; same_call. exact (Hbad Hshaken).
    + intros c i Hin Hbad. exfalso. in_cases Hin; same_call. exact (Hbad Hstarted).
    + intros d sv Hin Hbad. exfalso. in_cases Hin; same_call.
      exact (Hbad Hconnected).
    + intros session document Hin Hbad. exfalso. in_cases Hin; same_call.
      exact (Hbad Hsend).
    + intros session timeout_ms Hin Hbad. exfalso. in_cases Hin; same_call.
      exact (Hbad v Hreceive).
Qed.

(** C7, as the code has it.  For a run of [main] that exits with [status]
    after the calls [tr]: [status] is 0 exactly when the help text or the
    version was printed to stdout, or both the send and the receive were
    made and succeeded; a device lookup, handshake, service start, client
    creation, send or receive whose reply reports a failure gives a status
    other than 0; and when the options parse and the first argument is no
    known command, the usage goes to stderr, no device lookup is made and
    the status is other than 0. *)
Theorem exit_status (opts : list (ascii * string)) (args : list string)
    (status : Z) (w' : world) :
  main opts args initial_world = Ret status w' ->
  let tr := trace w' in
  (status = 0 <->
   (In (print_usage_call false) tr \/ In (printf_call false "%s %s\n") tr) \/
   (send_succeeded tr /\ receive_succeeded tr)) /\
  (forall u n,
     In (idevice_new_with_options_call u n) tr ->
     fst (idevice_new_with_options_reply u n) <> IDEVICE_E_SUCCESS ->
     status <> 0) /\
  (forall d l,
     In (lockdownd_client_new_with_handshake_call d l) tr ->
     fst (lockdownd_client_new_with_handshake_reply d l) <> LOCKDOWN_E_SUCCESS ->
     status <> 0) /\
  (forall c i,
     In (lockdownd_start_service_call c i) tr ->
     fst (lockdownd_start_service_reply c i) <> LOCKDOWN_E_SUCCESS ->
     status <> 0) /\
  (forall d sv,
     In (property_list_service_client_new_call d sv) tr ->
     fst (client_new_reply d sv) <> PROPERTY_LIST_SERVICE_E_SUCCESS ->
     status <> 0) /\
  (forall session document,
     In (property_list_service_send_binary_plist_call session document) tr ->
     power_error (send_binary_plist_reply session document) <> POWER_E_SUCCESS ->
     status <> 0) /\
  (forall session timeout_ms,
     In (property_list_service_receive_plist_with_timeout_call session timeout_ms) tr ->
     (forall v, receive_plist_with_timeout_reply session timeout_ms
                <> (PROPERTY_LIST_SERVICE_E_SUCCESS, Some v)) ->
     status <> 0) /\
  (forall s arg rest,
     returned (parse_options opts default_settings initial_world) = Some (Parsed s) ->
     args = arg :: rest ->
     command arg = CMD_NONE ->
     status <> 0 /\
     In (print_usage_call true) tr /\
     forall u n, ~ In (idevice_new_with_options_call u n) tr).
Proof.
  intros Hmain tr.
  enough (Hall : status_explained status tr /\
                 (forall s arg rest,
                    returned (parse_options opts default_settings initial_world)
                      = Some (Parsed s) ->
                    args = arg :: rest ->
                    command arg = CMD_NONE ->
                    status <> 0 /\
                    In (print_usage_call true) tr /\
                    forall u n, ~ In (idevice_new_with_options_call u n) tr)).
  { destruct Hall as [Hexplained Hunknown]. unfold status_explained in Hexplained.
    tauto. }
  destruct (main_run opts args) as (r & es & Hrun & Hes & Hends & Hfin).
  unfold finishes, main_course in Hfin. subst tr.
  assert (Hparse : returned (parse_options opts default_settings initial_world)
                   = Some r)
    by (rewrite (Hrun initial_world); reflexivity).
  rewrite Hparse.
  destruct r as [st | s].
  { destruct Hfin as (w0 & Hmain0 & Htrace0).
    rewrite Hmain in Hmain0. injection Hmain0 as Hst Hw. subst.
    rewrite Htrace0. cbn [trace initial_world app].
    split; [| intros s arg rest Hs; discriminate Hs].
    apply console_explained; [exact Hes |].
    destruct Hends as [Hhelp _]. rewrite Hhelp.
    split; [intros H; injection H as ->; reflexivity | intros ->; reflexivity]. }
  assert (Hnohelp : forall e, In e es -> help_event e = true -> False)
    by (apply (no_help_unless_exit_0 (Parsed s) es Hends); discriminate).
  destruct args as [| arg0 rest0].
  { destruct Hfin as (w0 & Hmain0 & Htrace0).
    rewrite Hmain in Hmain0. injection Hmain0 as Hst Hw. subst.
    rewrite Htrace0. cbn [trace initial_world app].
    split; [| intros s' arg rest _ Hargs; discriminate Hargs].
    apply stopped_explained;
      [exact Hes | exact Hnohelp | repeat constructor | discriminate]. }
  destruct (command arg0) eqn:Hcmd.
  { destruct Hfin as (w0 & Hmain0 & Htrace0).
    rewrite Hmain in Hmain0. injection Hmain0 as Hst Hw. subst.
    rewrite Htrace0. cbn [trace initial_world app].
    split.
    - apply stopped_explained;
        [exact Hes | exact Hnohelp | repeat constructor | discriminate].
    - intros s' arg rest _ _ _.
      split; [discriminate |]. split.
      + apply in_app_iff. right. right. left. reflexivity.
      + intros u n Hin. in_cases Hin. }
  all: match type of Hfin with
       | context [run_course ?cmd ?s0] =>
           destruct (run_course cmd s0) as [[st es']|] eqn:Hcourse
       end;
    [| rewrite Hmain in Hfin; discriminate Hfin].
  all: destruct Hfin as (w0 & Hmain0 & Htrace0);
    rewrite Hmain in Hmain0; injection Hmain0 as Hst Hw; subst;
    rewrite Htrace0; cbn [trace initial_world app].
  all: split;
    [| intros s' arg rest _ Hargs Hnone; injection Hargs as <- <-;
       rewrite Hcmd in Hnone; discriminate Hnone].
  all: match type of Hcourse with
       | run_course ?cmd ?s0 = _ =>
           pose proof (run_course_stops cmd s0) as Hstops;
           rewrite Hcourse in Hstops;
           destruct Hstops as [Hreach | [-> Hquiet]];
           [ rewrite (run_course_reaches cmd s0 Hreach) in Hcourse;
             injection Hcourse as <- <-;
             apply reaching_explained; assumption
           | apply stopped_explained;
             [ exact Hes | exact Hnohelp
             | revert Hquiet; apply List.Forall_impl; intros e; tauto
             | discriminate ] ]
       end.
Qed.

End ExitStatus.

(** ** The driver at concrete command lines *)

Lemma good_run_reaches_exchange (s : settings) :
  reaches_exchange (transport := good_transport (PLIST_STRING "ack"))
    (libc := decimal_libc) (discovery := good_discovery) s.
Proof.
  unfold reaches_exchange. cbn.
  repeat split; try discriminate.
  exists {| port := 49152 |}. split; [reflexivity | reflexivity].
Qed.

Lemma hold_after_exchange_witness :
  0 < 5 /\
  exists status w' before after,
    main (transport := good_transport (PLIST_STRING "ack")) (libc := decimal_libc)
      (discovery := good_discovery)
      [("t"%char, "5"%string)] ["sleep"%string] initial_world = Ret status w' /\
    trace w' = before ++ sleep_call 5 :: after /\
    In (property_list_service_send_binary_plist_call (Some 7%positive)
          (Some (request CMD_SYSTEM_SLEEP 5))) before /\
    Forall (fun e => exchange_event e = false) after /\
    (forall n, ~ In (sleep_call n) before) /\
    (forall n, ~ In (sleep_call n) after).
Proof.
  refine (hold_after_exchange
            (transport := good_transport (PLIST_STRING "ack")) (libc := decimal_libc)
            (discovery := good_discovery)
            [("t"%char, "5"%string)] ["sleep"%string] timeout_5 "sleep"%string []
            _ _ _ _).
  - vm_compute; reflexivity.
  - reflexivity.
  - vm_compute; discriminate.
  - apply good_run_reaches_exchange.
Defined.

Lemma idle_request_witness :
  exists status w' before after,
    main (transport := good_transport (PLIST_STRING "ack")) (libc := decimal_libc)
      (discovery := good_discovery)
      [("t"%char, "30"%string)] ["idle"%string] initial_world = Ret status w' /\
    trace w' =
      before
      ++ property_list_service_send_binary_plist_call (Some 7%positive)
           (Some (PLIST_DICT
                    [("CommandKey", PLIST_STRING "CommandCreateAssertion");
                     ("AssertionTypeKey", PLIST_STRING "PreventUserIdleSystemSleep");
                     ("AssertionNameKey", PLIST_STRING "idevicepower");
                     ("AssertionTimeoutKey", PLIST_UINT 30);
                     ("AssertionDetailKey", PLIST_STRING "power update")]%string))
      :: after /\
    (forall session document,
       ~ In (property_list_service_send_binary_plist_call session document) before) /\
    (forall session document,
       ~ In (property_list_service_send_binary_plist_call session document) after).
Proof.
  refine (idle_request
            (transport := good_transport (PLIST_STRING "ack")) (libc := decimal_libc)
            (discovery := good_discovery)
            [("t"%char, "30"%string)] ["idle"%string] timeout_30 [] _ _ _ _).
  - vm_compute; reflexivity.
  - reflexivity.
  - reflexivity.
  - apply good_run_reaches_exchange.
Defined.

(** Scenario A of the specification, run: [-t 30 idle] with every
    collaborator successful exits with 0 after the calls [idle_30_calls],
    among them a sleep of 20 seconds. *)
Example idle_30_run :
  main (transport := good_transport (PLIST_STRING "ack")) (libc := decimal_libc)
    (discovery := good_discovery)
    [("t"%char, "30"%string)] ["idle"%string] initial_world
  = Ret 0 idle_30_final.
Proof. vm_compute; reflexivity. Qed.

Lemma exit_status_witness :
  0 = 0 <->
  (In (print_usage_call false) idle_30_calls \/
   In (printf_call false "%s %s\n") idle_30_calls) \/
  (send_succeeded (transport := good_transport (PLIST_STRING "ack")) idle_30_calls /\
   receive_succeeded (transport := good_transport (PLIST_STRING "ack")) idle_30_calls).
Proof.
  refine (proj1 (exit_status
                   (transport := good_transport (PLIST_STRING "ack"))
                   (libc := decimal_libc) (discovery := good_discovery)
                   [("t"%char, "30"%string)] ["idle"%string] 0 idle_30_final _)).
  vm_compute; reflexivity.
Defined.

(** C7 fails twice.  With the option [-h] the driver exits with 0 and has
    only printed the usage: no send and no receive were made.  With the
    unknown command [foo] it exits with 1, not 2. *)
Lemma exit_status_counterexample :
  (returned
     (main (transport := good_transport (PLIST_STRING "ack")) (libc := decimal_libc)
        (discovery := good_discovery)
        [("h"%char, ""%string)] ["idle"%string] initial_world) = Some 0 /\
   option_map trace
     (final
        (main (transport := good_transport (PLIST_STRING "ack"))
           (libc := decimal_libc) (discovery := good_discovery)
           [("h"%char, ""%string)] ["idle"%string] initial_world))
   = Some [print_usage_call false]) /\
  (returned
     (main (transport := good_transport (PLIST_STRING "ack")) (libc := decimal_libc)
        (discovery := good_discovery) [] ["foo"%string] initial_world) = Some 1 /\
   option_map trace
     (final
        (main (transport := good_transport (PLIST_STRING "ack"))
           (libc := decimal_libc) (discovery := good_discovery)
           [] ["foo"%string] initial_world))
   = Some [printf_call true "ERROR: Unsupported command '%s'\n";
           print_usage_call true]).
Proof. vm_compute. repeat split. Qed.

(** * Further properties of the client *)

(** X1.  The translation keeps the codes apart: only the transport's
    success becomes POWER_E_SUCCESS, only a code without a case label
    becomes POWER_E_UNKNOWN_ERROR, two transport codes with the same
    translation other than POWER_E_UNKNOWN_ERROR are the same code, and the
    integer a caller sees is 0 exactly on the transport's success and
    negative otherwise. *)
Theorem power_error_no_aliasing :
  (forall e, power_error e = POWER_E_SUCCESS <-> e = PROPERTY_LIST_SERVICE_E_SUCCESS) /\
  (forall e, power_error e = POWER_E_UNKNOWN_ERROR <->
             exists code, e = PROPERTY_LIST_SERVICE_E_OTHER code) /\
  (forall e1 e2,
     power_error e1 = power_error e2 ->
     power_error e1 <> POWER_E_UNKNOWN_ERROR ->
     e1 = e2) /\
  (forall e, power_error_code (power_error e) = 0 <->
             e = PROPERTY_LIST_SERVICE_E_SUCCESS) /\
  (forall e, e <> PROPERTY_LIST_SERVICE_E_SUCCESS ->
             power_error_code (power_error e) < 0).
Proof.
  split; [| split; [| split; [| split]]].
  - intros e. destruct e; simpl; split; congruence.
  - intros e. destruct e; simpl; split; try congruence; try (intros [c H]; congruence).
    intros _. eexists; reflexivity.
  - intros e1 e2. destruct e1, e2; simpl; congruence.
  - intros e. destruct e; simpl; split; congruence.
  - intros e. destruct e; simpl; intros H; try lia. congruence.
Qed.

Lemma power_error_no_aliasing_witness :
  PROPERTY_LIST_SERVICE_E_RECEIVE_TIMEOUT = PROPERTY_LIST_SERVICE_E_RECEIVE_TIMEOUT /\
  power_error_code (power_error PROPERTY_LIST_SERVICE_E_NOT_ENOUGH_DATA) < 0.
Proof.
  destruct power_error_no_aliasing as (_ & _ & Hinj & _ & Hneg).
  split.
  - apply Hinj; [reflexivity | discriminate].
  - apply Hneg. discriminate.
Defined.

Section ClientFootprints.
Context {transport : Transport} {libc : Libc}.

(** X2.  Whenever [power_receive_with_timeout] returns, it has made one call,
    the receive on the client's session with the caller's timeout; its code
    is POWER_E_SUCCESS or POWER_E_MUX_ERROR and no other; and the clients
    and the [power_client_t] variables are as before. *)
Theorem power_receive_with_timeout_footprint (w w' : world)
    (client : power_client_t) (p : option loc) (timeout_ms : Z)
    (code : power_error_t) :
  power_receive_with_timeout client p timeout_ms w = Ret code w' ->
  (code = POWER_E_SUCCESS \/ code = POWER_E_MUX_ERROR) /\
  clients w' = clients w /\
  client_slots w' = client_slots w /\
  exists a c,
    client = Some a /\ clients w !! a = Some c /\
    trace w' = trace w ++ [property_list_service_receive_plist_with_timeout_call
                             (parent c) timeout_ms].
Proof.
  destruct client as [a|];
    [| rewrite power_receive_with_timeout_no_client by exact I; discriminate].
  destruct (clients w !! a) as [c|] eqn:Hc;
    [| rewrite power_receive_with_timeout_no_client by exact Hc; discriminate].
  rewrite (power_receive_with_timeout_run w a c p timeout_ms Hc).
  cbv zeta.
  assert (Hfail :
    Ret POWER_E_MUX_ERROR
      (after_call w (property_list_service_receive_plist_with_timeout_call
                       (parent c) timeout_ms)) = Ret code w' ->
    (code = POWER_E_SUCCESS \/ code = POWER_E_MUX_ERROR) /\
    clients w' = clients w /\ client_slots w' = client_slots w /\
    exists a0 c0,
      Some a = Some a0 /\ clients w !! a0 = Some c0 /\
      trace w' = trace w ++ [property_list_service_receive_plist_with_timeout_call
                               (parent c0) timeout_ms]).
  { intros H. injection H as <- <-. cbn [after_call clients client_slots trace].
    repeat split; auto. exists a, c. auto. }
  destruct (receive_plist_with_timeout_reply (parent c) timeout_ms) as [err [v|]];
    destruct err; try exact Hfail.
  destruct p as [s|]; [| discriminate].
  destruct (plist_slots w !! s); [| discriminate].
  intros H. injection H as <- <-. cbn [clients client_slots trace].
  repeat split; auto. exists a, c. auto.
Qed.

(** X3.  Whenever [power_send] returns, it has made one call, the send of
    the document [p] stands for on the client's session; its code is the
    translation of the transport's answer, POWER_E_SUCCESS exactly when the
    transport reports success; and the memory is as before: the document
    stays live and stays the caller's. *)
Theorem power_send_footprint (w w' : world) (client : power_client_t)
    (p : plist_t) (code : power_error_t) :
  power_send client p w = Ret code w' ->
  clients w' = clients w /\ plists w' = plists w /\
  client_slots w' = client_slots w /\ plist_slots w' = plist_slots w /\
  exists a c document,
    client = Some a /\ clients w !! a = Some c /\
    match p with
    | None => document = None
    | Some d => plists w !! d = document /\ document <> None
    end /\
    trace w' = trace w ++ [property_list_service_send_binary_plist_call
                             (parent c) document] /\
    code = power_error (send_binary_plist_reply (parent c) document) /\
    (code = POWER_E_SUCCESS <->
     send_binary_plist_reply (parent c) document = PROPERTY_LIST_SERVICE_E_SUCCESS).
Proof.
  destruct client as [a|]; [| discriminate].
  destruct (clients w !! a) as [c|] eqn:Hc.
  2:{ unfold power_send, bind, load_parent. rewrite Hc. discriminate. }
  rewrite (power_send_run w a c p Hc).
  destruct p as [d|].
  - destruct (plists w !! d) as [v|] eqn:Hd; [| discriminate].
    intros H. injection H as <- <-. cbn [after_call clients plists client_slots
                                          plist_slots trace].
    repeat split; auto.
    exists a, c, (Some v). repeat split; auto; try discriminate;
      apply power_error_success.
  - intros H. injection H as <- <-. cbn [after_call clients plists client_slots
                                          plist_slots trace].
    repeat split; auto.
    exists a, c, None. repeat split; auto; apply power_error_success.
Qed.

(** X4.  [power_client_free] on a live client closes its session with one
    call and releases the client whatever the close reports; after that the
    handle is dead: a second [power_client_free], a [power_send] and a
    [power_receive_with_timeout] on it fault. *)
Theorem power_client_free_once (w : world) (a : loc) (c : power_client_private)
    (p : plist_t) (q : option loc) (timeout_ms : Z) :
  clients w !! a = Some c ->
  exists w1,
    power_client_free (Some a) w =
      Ret (power_error (client_free_reply (parent c))) w1 /\
    clients w1 = delete a (clients w) /\
    plists w1 = plists w /\
    trace w1 = trace w ++ [property_list_service_client_free_call (parent c)] /\
    power_client_free (Some a) w1 = Fault /\
    power_send (Some a) p w1 = Fault /\
    power_receive_with_timeout (Some a) q timeout_ms w1 = Fault.
Proof.
  intros Hc. rewrite (power_client_free_run w a c Hc).
  eexists. split; [reflexivity |]. cbn [clients plists trace].
  repeat split.
  - unfold power_client_free, bind, load_parent. cbn [clients].
    rewrite lookup_delete_eq. reflexivity.
  - unfold power_send, bind, load_parent. cbn [clients].
    rewrite lookup_delete_eq. reflexivity.
  - apply power_receive_with_timeout_no_client. cbn [clients].
    apply lookup_delete_eq.
Qed.

(** X5.  When [power_client_new] returns a failure, nothing was allocated
    and no document or variable other than [*client] was touched; it has
    made no call when the device or the service descriptor is NULL or the
    port is 0, and otherwise the one call that creates the session. *)
Theorem power_client_new_failure_frame (w w' : world) (device : idevice_t)
    (service : lockdownd_service_descriptor_t) (s : loc) (prior : power_client_t)
    (code : power_error_t) :
  client_slots w !! s = Some prior ->
  power_client_new device service (Some s) w = Ret code w' ->
  code <> POWER_E_SUCCESS ->
  clients w' = clients w /\ plists w' = plists w /\
  plist_slots w' = plist_slots w /\
  client_slots w' = <[s := None]> (client_slots w) /\
  if match device, service with
     | Some _, Some sd => port sd =? 0
     | _, _ => true
     end
  then code = POWER_E_INVALID_ARG /\ trace w' = trace w
  else trace w' = trace w ++ [property_list_service_client_new_call device service] /\
       code = power_error (fst (client_new_reply device service)).
Proof.
  intros Hs. rewrite (power_client_new_run w device service s prior Hs).
  assert (Hinv : Ret POWER_E_INVALID_ARG (cleared s w) = Ret code w' ->
            clients w' = clients w /\ plists w' = plists w /\
            plist_slots w' = plist_slots w /\
            client_slots w' = <[s := None]> (client_slots w) /\
            code = POWER_E_INVALID_ARG /\ trace w' = trace w).
  { intros H. injection H as <- <-. cbn. auto 10. }
  destruct device as [dv|]; [| intros H _; exact (Hinv H)].
  destruct service as [sd|]; [| intros H _; exact (Hinv H)].
  destruct (port sd =? 0); [intros H _; exact (Hinv H) |].
  cbv zeta.
  destruct (client_new_reply (Some dv) (Some sd)) as [err session].
  destruct err;
    try (intros H _; injection H as <- <-; cbn; auto 10).
  destruct malloc_fails; [discriminate |].
  intros H Hne. injection H as <- _. contradiction.
Qed.

(** X6.  A client made by [power_client_new] and freed at once by
    [power_client_free]: the first returns POWER_E_SUCCESS, the second the
    translation of the close; the session that the transport handed out is
    closed once; and no client and no document is left over. *)
Theorem power_client_new_then_free (w : world) (dv s : loc)
    (sd : lockdownd_service_descriptor) (prior : power_client_t)
    (session : property_list_service_client_t) :
  client_slots w !! s = Some prior ->
  port sd <> 0 ->
  client_new_reply (Some dv) (Some sd) = (PROPERTY_LIST_SERVICE_E_SUCCESS, session) ->
  malloc_fails = false ->
  exists w1 w2 c,
    power_client_new (Some dv) (Some sd) (Some s) w = Ret POWER_E_SUCCESS w1 /\
    client_slots w1 !! s = Some (Some c) /\
    power_client_free (Some c) w1 =
      Ret (power_error (client_free_reply session)) w2 /\
    clients w2 = clients w /\
    plists w2 = plists w /\
    trace w2 =
      trace w ++ [property_list_service_client_new_call (Some dv) (Some sd);
                  property_list_service_client_free_call session].
Proof.
  intros Hs Hport Hreply Hmalloc.
  rewrite (power_client_new_run w (Some dv) (Some sd) s prior Hs).
  replace (port sd =? 0) with false by (symmetry; apply Z.eqb_neq; exact Hport).
  cbv zeta. rewrite Hreply, Hmalloc.
  eexists _, _, (fresh (dom (clients w))).
  split; [reflexivity |].
  split; [cbn [client_slots]; apply lookup_insert_eq |].
  match goal with
  | |- power_client_free (Some ?c) ?w1 = _ /\ _ =>
      rewrite (power_client_free_run w1 c {| parent := session |})
        by (cbn [clients]; apply lookup_insert_eq)
  end.
  split; [reflexivity |]. cbn [clients plists trace parent].
  split; [| split; [reflexivity |]].
  - apply delete_insert_id, not_elem_of_dom_1, is_fresh.
  - rewrite <- app_assoc. reflexivity.
Qed.

End ClientFootprints.

(** * Further properties of the driver *)

(** X7.  The chain of [strcmp] knows three commands and matches them
    exactly: [sync], [idle] and [sleep]; every other first argument is
    CMD_NONE. *)
Theorem command_exact (arg : string) :
  (command arg = CMD_WIRELESS_SYNC <-> arg = "sync"%string) /\
  (command arg = CMD_USER_IDLE_SLEEP <-> arg = "idle"%string) /\
  (command arg = CMD_SYSTEM_SLEEP <-> arg = "sleep"%string) /\
  (command arg = CMD_NONE <->
   arg <> "sync"%string /\ arg <> "idle"%string /\ arg <> "sleep"%string).
Proof.
  unfold command.
  destruct (String.eqb_spec arg "sync") as [-> | Hsync].
  { repeat split; try discriminate; try reflexivity.
    intros (H & _ & _). contradiction. }
  destruct (String.eqb_spec arg "idle") as [-> | Hidle].
  { repeat split; try discriminate; try reflexivity.
    intros (_ & H & _). contradiction. }
  destruct (String.eqb_spec arg "sleep") as [-> | Hsleep].
  { repeat split; try discriminate; try reflexivity.
    intros (_ & _ & H). contradiction. }
  repeat split; try discriminate; try contradiction; auto.
Qed.

Section DriverExtras.
Context {transport : Transport} {libc : Libc} {discovery : Discovery}.

(** X8.  When the options parse into settings with timeout [t], the command
    is known and the run reaches the exchange, [main] sends one document:
    the dictionary whose AssertionTypeKey is the type name of the command
    and whose AssertionTimeoutKey is [t] itself, not the shortened time of
    the hold. *)
Theorem request_sent (opts : list (ascii * string)) (args : list string)
    (s : settings) (arg : string) (rest : list string) :
  returned (parse_options opts default_settings initial_world) = Some (Parsed s) ->
  args = arg :: rest ->
  command arg <> CMD_NONE ->
  reaches_exchange s ->
  exists status w' before after,
    main opts args initial_world = Ret status w' /\
    trace w' =
      before
      ++ property_list_service_send_binary_plist_call (snd (connected s))
           (Some (PLIST_DICT
                    [("CommandKey", PLIST_STRING "CommandCreateAssertion");
                     ("AssertionTypeKey",
                      PLIST_STRING
                        match command arg with
                        | CMD_WIRELESS_SYNC => "AMDPowerAssertionTypeWirelessSync"
                        | CMD_USER_IDLE_SLEEP => "PreventUserIdleSystemSleep"
                        | _ => "PreventSystemSleep"
                        end);
                     ("AssertionNameKey", PLIST_STRING "idevicepower");
                     ("AssertionTimeoutKey", PLIST_UINT (timeout s));
                     ("AssertionDetailKey", PLIST_STRING "power update")]%string))
      :: after /\
    (forall session document,
       ~ In (property_list_service_send_binary_plist_call session document) before) /\
    (forall session document,
       ~ In (property_list_service_send_binary_plist_call session document) after).
Proof.
  intros Hparsed Hargs Hcmd Hreach.
  destruct (main_reaches opts args s arg rest Hparsed Hargs Hcmd Hreach)
    as (_ & es & w' & Hes & _ & Hmain & Htrace).
  exists (fst (exchange_course (command arg) s)), w',
    (es ++ calls_before_exchange s),
    (tl (snd (exchange_course (command arg) s)) ++ calls_after_exchange s).
  split; [exact Hmain |]. split.
  { rewrite Htrace.
    destruct (exchange_course_cases (command arg) s)
      as [[_ ->] | [(_ & _ & ->) | (_ & _ & ->)]];
      cbn [snd tl]; rewrite <- !app_assoc;
      destruct (command arg); try contradiction; reflexivity. }
  split.
  - intros session document Hin. rewrite in_app_iff in Hin.
    destruct Hin as [Hin | Hin].
    + apply (console_member es _ Hes) in Hin. discriminate Hin.
    + cbn in Hin. decompose [or] Hin; try discriminate; contradiction.
  - intros session document Hin. rewrite in_app_iff in Hin.
    destruct Hin as [Hin | Hin].
    + destruct (exchange_course_cases (command arg) s)
        as [[_ Heq] | [(_ & _ & Heq) | (_ & _ & Heq)]];
        rewrite Heq in Hin; cbn in Hin;
        decompose [or] Hin; try discriminate; contradiction.
    + cbn in Hin. decompose [or] Hin; try discriminate; contradiction.
Qed.

(** The calls of a run of [main] that exits are those of the course that
    the option loop and the replies select. *)
Lemma main_trace (opts : list (ascii * string)) (args : list string)
    (status : Z) (w' : world) :
  main opts args initial_world = Ret status w' ->
  exists r es,
    returned (parse_options opts default_settings initial_world) = Some r /\
    Forall (fun e => console_event e = true) es /\
    option_loop_ends r es /\
    main_course r es args = Some (status, trace w').
Proof.
  intros Hmain.
  destruct (main_run opts args) as (r & es & Hrun & Hes & Hends & Hfin).
  exists r, es.
  split; [rewrite (Hrun initial_world); reflexivity |].
  split; [exact Hes |]. split; [exact Hends |].
  unfold finishes in Hfin.
  destruct (main_course r es args) as [[st evs]|].
  - destruct Hfin as (w0 & Hmain0 & Htrace0).
    rewrite Hmain in Hmain0. injection Hmain0 as Hst Hw. subst.
    rewrite Htrace0. reflexivity.
  - rewrite Hmain in Hfin. discriminate Hfin.
Qed.

(** X9.  [main] exits with 0, 1 or 2.  It exits with 2 only for a usage
    error found before any collaborator is called: all it has done then is
    console output and the debug level, and the usage is on stderr. *)
Theorem exit_status_range (opts : list (ascii * string)) (args : list string)
    (status : Z) (w' : world) :
  main opts args initial_world = Ret status w' ->
  (status = 0 \/ status = 1 \/ status = 2) /\
  (status = 2 ->
   Forall (fun e => console_event e = true) (trace w') /\
   In (print_usage_call true) (trace w') /\
   (args <> [] ->
    exists status', returned (parse_options opts default_settings initial_world)
                    = Some (Exit status'))).
Proof.
  intros Hmain.
  destruct (main_trace opts args status w' Hmain)
    as (r & es & Hparse & Hes & Hends & Hcourse).
  rewrite Hparse. unfold main_course in Hcourse.
  destruct r as [st | s].
  { injection Hcourse as <- <-.
    destruct Hends as [_ [-> | [-> Husage]]].
    - split; [auto | discriminate].
    - split; [auto |]. intros _. split; [exact Hes |]. split; [exact Husage |].
      intros _. eexists; reflexivity. }
  destruct args as [| arg rest].
  { injection Hcourse as <- <-. split; [auto |]. intros _.
    split; [| split; [| intros H; contradiction]].
    - apply Forall_app. split; [exact Hes | repeat constructor].
    - apply in_app_iff. right. right. left. reflexivity. }
  assert (Hknown : forall cmd,
            match run_course cmd s with
            | None => None
            | Some (status0, es') => Some (status0, es ++ es')
            end = Some (status, trace w') ->
            (status = 0 \/ status = 1 \/ status = 2) /\ status <> 2).
  { intros cmd H.
    pose proof (run_course_stops cmd s) as Hstops.
    destruct (run_course cmd s) as [[st es']|] eqn:Hrun; [| discriminate H].
    injection H as <- _.
    destruct Hstops as [Hreach | [-> _]]; [| split; [auto | discriminate]].
    rewrite (run_course_reaches cmd s Hreach) in Hrun. injection Hrun as <- _.
    destruct (exchange_course_cases cmd s)
      as [[_ ->] | [(_ & _ & ->) | (_ & _ & ->)]];
      cbn [fst]; split; auto; discriminate. }
  destruct (command arg).
  { injection Hcourse as <- _. split; [auto | discriminate]. }
  all: destruct (Hknown _ Hcourse) as [Hrange Hne];
    split; [exact Hrange | intros H2; contradiction].
Qed.

(** X10.  [main] receives only after a successful send, on the session it
    sent on and with the default timeout of 1000 ms; and it sleeps exactly
    in the runs in which it has sent. *)
Theorem receive_follows_send (opts : list (ascii * string)) (args : list string)
    (status : Z) (w' : world) :
  main opts args initial_world = Ret status w' ->
  (forall session timeout_ms,
     In (property_list_service_receive_plist_with_timeout_call session timeout_ms)
        (trace w') ->
     timeout_ms = 1000 /\
     exists before after document,
       trace w' =
         before
         ++ property_list_service_send_binary_plist_call session document
         :: property_list_service_receive_plist_with_timeout_call session timeout_ms
         :: after /\
       power_error (send_binary_plist_reply session document) = POWER_E_SUCCESS) /\
  ((exists n, In (sleep_call n) (trace w')) <->
   (exists session document,
      In (property_list_service_send_binary_plist_call session document)
         (trace w'))).
Proof.
  intros Hmain.
  destruct (main_trace opts args status w' Hmain)
    as (r & es & Hparse & Hes & Hends & Hcourse).
  assert (Hquiet : forall es',
            Forall (fun e => exchange_event e = false /\
                             match e with sleep_call _ => False | _ => True end) es' ->
            trace w' = es ++ es' ->
            (forall session timeout_ms,
               In (property_list_service_receive_plist_with_timeout_call
                     session timeout_ms) (trace w') ->
               timeout_ms = 1000 /\
               exists before after document,
                 trace w' =
                   before
                   ++ property_list_service_send_binary_plist_call session document
                   :: property_list_service_receive_plist_with_timeout_call
                        session timeout_ms
                   :: after /\
                 power_error (send_binary_plist_reply session document)
                 = POWER_E_SUCCESS) /\
            ((exists n, In (sleep_call n) (trace w')) <->
             (exists session document,
                In (property_list_service_send_binary_plist_call session document)
                   (trace w')))).
  { intros es' Hes' ->. rewrite List.Forall_forall in Hes'.
    split; [| split].
    - intros session timeout_ms Hin. exfalso.
      apply in_app_iff in Hin. destruct Hin as [Hin | Hin].
      + apply (console_member es _ Hes) in Hin. discriminate Hin.
      + destruct (Hes' _ Hin) as [H _]. discriminate H.
    - intros [n Hin]. exfalso.
      apply in_app_iff in Hin. destruct Hin as [Hin | Hin].
      + apply (console_member es _ Hes) in Hin. discriminate Hin.
      + destruct (Hes' _ Hin) as [_ []].
    - intros (session & document & Hin). exfalso.
      apply in_app_iff in Hin. destruct Hin as [Hin | Hin].
      + apply (console_member es _ Hes) in Hin. discriminate Hin.
      + destruct (Hes' _ Hin) as [H _]. discriminate H. }
  unfold main_course in Hcourse.
  destruct r as [st | s].
  { injection Hcourse as _ Htrace. apply (Hquiet []); [constructor |].
    rewrite app_nil_r. symmetry. exact Htrace. }
  destruct args as [| arg rest].
  { injection Hcourse as _ Htrace.
    apply (Hquiet [printf_call true "ERROR: No command specified\n";
                   print_usage_call true]); [repeat constructor | auto]. }
  assert (Hknown : forall cmd,
            match run_course cmd s with
            | None => None
            | Some (status0, es') => Some (status0, es ++ es')
            end = Some (status, trace w') ->
            (forall session timeout_ms,
               In (property_list_service_receive_plist_with_timeout_call
                     session timeout_ms) (trace w') ->
               timeout_ms = 1000 /\
               exists before after document,
                 trace w' =
                   before
                   ++ property_list_service_send_binary_plist_call session document
                   :: property_list_service_receive_plist_with_timeout_call
                        session timeout_ms
                   :: after /\
                 power_error (send_binary_plist_reply session document)
                 = POWER_E_SUCCESS) /\
            ((exists n, In (sleep_call n) (trace w')) <->
             (exists session document,
                In (property_list_service_send_binary_plist_call session document)
                   (trace w')))).
  { intros cmd H.
    pose proof (run_course_stops cmd s) as Hstops.
    destruct (run_course cmd s) as [[st es']|] eqn:Hrun; [| discriminate H].
    injection H as _ Htrace.
    destruct Hstops as [Hreach | [_ Hstopped]].
    2:{ apply (Hquiet es'); [| auto].
        revert Hstopped. apply List.Forall_impl. intros e. tauto. }
    rewrite (run_course_reaches cmd s Hreach) in Hrun. injection Hrun as _ <-.
    rewrite <- Htrace.
    assert (Hsent : In (property_list_service_send_binary_plist_call
                          (snd (connected s)) (Some (request cmd (timeout s))))
                       (snd (exchange_course cmd s)))
      by (destruct (exchange_course_cases cmd s)
            as [[_ ->] | [(_ & _ & ->) | (_ & _ & ->)]]; left; reflexivity).
    split.
    - intros session timeout_ms Hin.
      apply in_app_iff in Hin. destruct Hin as [Hin | Hin];
        [apply (console_member es _ Hes) in Hin; discriminate Hin |].
      cbn [In app calls_before_exchange] in Hin.
      decompose [or] Hin;
        repeat match goal with E : _ = _ |- _ => discriminate E end.
      match goal with
      | I : In _ (_ ++ _) |- _ => apply in_app_iff in I; destruct I as [I | I]
      end.
      + destruct (exchange_course_cases cmd s)
          as [[_ Heq] | [(Hok & _ & Heq) | (Hok & _ & Heq)]];
          rewrite Heq in * |- *; cbn [In snd] in *;
          match goal with
          | I : _ \/ _ |- _ =>
              decompose [or] I;
              repeat match goal with
                     | E : _ = _ |- _ => discriminate E
                     | F : False |- _ => destruct F
                     end
          end;
          match goal with
          | E : _ = property_list_service_receive_plist_with_timeout_call _ _ |- _ =>
              injection E as <- <-
          end;
          (split; [reflexivity |]);
          exists (es ++ calls_before_exchange s); eexists; eexists;
          (split; [rewrite <- !app_assoc; reflexivity | exact Hok]).
      + exfalso. cbn in H. decompose [or] H;
          repeat match goal with
                 | E : _ = _ |- _ => discriminate E
                 | F : False |- _ => destruct F
                 end.
    - split.
      + intros _. eexists; eexists.
        apply in_or_app; right. do 5 apply in_cons.
        apply in_or_app; left. exact Hsent.
      + intros _. eexists.
        apply in_or_app; right. do 5 apply in_cons.
        apply in_or_app; right. left. reflexivity. }
  destruct (command arg).
  { injection Hcourse as _ Htrace.
    apply (Hquiet [printf_call true "ERROR: Unsupported command '%s'\n";
                   print_usage_call true]); [repeat constructor | auto]. }
  all: exact (Hknown _ Hcourse).
Qed.

End DriverExtras.

Section Releases.
Context {transport : Transport} {libc : Libc} {discovery : Discovery}.






End Releases.

(** * Memory over a run of the driver *)

Section DriverMemory.
Context {transport : Transport} {libc : Libc} {discovery : Discovery}.

(** [send_and_receive] releases the request and leaves at most the received
    document, owned by the variable [assertion]. *)
Lemma send_and_receive_heap (pc a c d : loc) (cl : power_client_private)
    (doc : plist) (w w' : world) (result : Z) :
  client_slots w !! pc = Some (Some c) ->
  clients w !! c = Some cl ->
  plist_slots w !! a = Some (Some d) ->
  plists w !! d = Some doc ->
  send_and_receive pc a w = Ret result w' ->
  clients w' = clients w /\
  client_slots w' = client_slots w /\
  owns_at_most a (delete d (plists w)) w'.
Proof.
  intros Hpc Hc Ha Hd.
  unfold send_and_receive, bind, load_client_slot, load_plist_slot.
  rewrite Hpc, Ha.
  rewrite (power_send_run w c cl (Some d) Hc), Hd.
  unfold plist_free. world_simpl. rewrite Hd.
  unfold store_plist_slot. world_simpl. rewrite Ha.
  destruct (decide _) as [Hbad | Hok].
  - unfold call, ret. world_simpl.
    intros H. injection H as _ <-. world_simpl.
    split; [reflexivity |]. split; [reflexivity |].
    left. world_simpl. rewrite lookup_insert_eq. auto.
  - unfold power_receive.
    match goal with
    | |- context [power_receive_with_timeout (Some c) (Some a) 1000 ?w0] =>
        rewrite (power_receive_with_timeout_run w0 c cl (Some a) 1000 Hc)
    end.
    cbv zeta. world_simpl. rewrite lookup_insert_eq.
    destruct (receive_plist_with_timeout_reply (parent cl) 1000) as [err [v|]];
      destruct err;
      try (destruct (decide _) as [_ | Hne]; [| exfalso; apply Hne; discriminate];
           unfold call, ret; world_simpl;
           intros H; injection H as _ <-; world_simpl;
           split; [reflexivity |]; split; [reflexivity |];
           left; world_simpl; rewrite lookup_insert_eq; auto).
    destruct (decide _) as [Hne | _]; [exfalso; apply Hne; reflexivity |].
    intros H. injection H as _ <-. world_simpl.
    split; [reflexivity |]. split; [reflexivity |].
    right. exists (fresh (dom (delete d (plists w)))), v. world_simpl.
    rewrite lookup_insert_eq.
    split; [reflexivity |]. split; [| reflexivity].
    apply not_elem_of_dom_1, is_fresh.
Qed.

(** [assert_power] frees the client it creates and the request it builds. *)
Lemma assert_power_heap (cmd : cmd_mode) (s : settings) (device : idevice_t)
    (service : lockdownd_service_descriptor_t) (pc a : loc) (w w' : world)
    (prior : power_client_t) (result : Z) :
  0 < timeout s < 2 ^ 31 ->
  client_slots w !! pc = Some prior ->
  plist_slots w !! a = Some None ->
  assert_power cmd s device service pc a w = Ret result w' ->
  clients w' = clients w /\ owns_at_most a (plists w) w'.
Proof.
  intros Ht Hpc Ha.
  assert (Hearly : forall (t : list event) (cs : gmap loc power_client_t),
            (call (printf_call false "ERROR: Could not start power service!\n") ;;
             ret EXIT_FAILURE)
              (World (clients w) (plists w) cs (plist_slots w) t) = Ret result w' ->
            clients w' = clients w /\ owns_at_most a (plists w) w').
  { intros t cs H. unfold bind, call, ret in H. injection H as _ <-.
    split; [reflexivity |]. left. auto. }
  assert (Hnoclient : forall (t : list event) (cs : gmap loc power_client_t),
            (call (printf_call false "ERROR: Could not connect to power!\n") ;;
             ret EXIT_FAILURE)
              (World (clients w) (plists w) cs (plist_slots w) t) = Ret result w' ->
            clients w' = clients w /\ owns_at_most a (plists w) w').
  { intros t cs H. unfold bind, call, ret in H. injection H as _ <-.
    split; [reflexivity |]. left. auto. }
  unfold assert_power.
  destruct service as [sd|]; [| destruct w; apply Hearly].
  destruct (port sd >? 0); [| destruct w; apply Hearly].
  unfold bind at 1.
  rewrite (power_client_new_run w device (Some sd) pc prior Hpc).
  assert (Hinvalid :
            (if decide (POWER_E_INVALID_ARG <> POWER_E_SUCCESS)
             then call (printf_call false "ERROR: Could not connect to power!\n") ;;
                  ret EXIT_FAILURE
             else
               build_request cmd (timeout s) a ;;
               result <- send_and_receive pc a ;;
               hold (timeout s) ;;
               pc0 <- load_client_slot (Some pc) ;;
               power_client_free pc0 ;;
               ret result) (cleared pc w) = Ret result w' ->
            clients w' = clients w /\ owns_at_most a (plists w) w').
  { destruct (decide _) as [_ | Hne]; [| exfalso; apply Hne; discriminate].
    apply Hnoclient. }
  destruct device as [dv|]; [| exact Hinvalid].
  destruct (port sd =? 0); [exact Hinvalid |].
  clear Hinvalid. cbv zeta.
  destruct (client_new_reply (Some dv) (Some sd)) as [err session].
  destruct err;
    try (world_simpl; simpl power_error;
         destruct (decide _) as [_ | Hne]; [| exfalso; apply Hne; discriminate];
         apply Hnoclient).
  destruct malloc_fails; [discriminate |].
  destruct (decide _) as [Hne | _]; [exfalso; apply Hne; reflexivity |].
  unfold bind at 1.
  match goal with
  | |- context [build_request cmd (timeout s) a ?w1] =>
      rewrite (build_request_run cmd (timeout s) a w1 None Ht Ha)
  end.
  world_simpl. unfold bind at 1.
  match goal with
  | |- context [send_and_receive pc a ?w2] =>
      destruct (send_and_receive pc a w2) as [| r w3] eqn:Hexchange;
      [discriminate |];
      apply (send_and_receive_heap pc a (fresh (dom (clients w)))
               (fresh (dom (plists w))) {| parent := session |}
               (request cmd (timeout s))) in Hexchange;
      [| world_simpl; apply lookup_insert_eq ..]
  end.
  destruct Hexchange as (Hclients & Hslots & Howns).
  cbn [clients plists client_slots plist_slots trace] in Hclients, Hslots, Howns.
  rewrite delete_insert_id in Howns by apply not_elem_of_dom_1, is_fresh.
  unfold bind. rewrite (hold_run (timeout s) w3 Ht).
  unfold load_client_slot. world_simpl. rewrite Hslots, lookup_insert_eq.
  match goal with
  | |- context [power_client_free (Some ?c) ?w4] =>
      rewrite (power_client_free_run w4 c {| parent := session |})
        by (world_simpl; rewrite Hclients; apply lookup_insert_eq)
  end.
  unfold ret. intros H. injection H as _ <-. world_simpl.
  split.
  - rewrite Hclients. apply delete_insert_id, not_elem_of_dom_1, is_fresh.
  - exact Howns.
Qed.

(** The label [cleanup] releases what the variable [assertion] owns. *)
Lemma cleanup_heap (a : loc) (base : gmap loc plist) (result result' : Z)
    (w w' : world) :
  owns_at_most a base w ->
  cleanup a result w = Ret result' w' ->
  clients w' = clients w /\ plists w' = base.
Proof.
  unfold cleanup, bind, load_plist_slot.
  intros [[Ha Hbase] | (d & v & Ha & Hfresh & Hbase)]; rewrite Ha.
  - intros H. injection H as _ <-. auto.
  - unfold bind, plist_free, ret. rewrite Hbase, lookup_insert_eq.
    intros H. injection H as _ <-. world_simpl.
    split; [reflexivity |]. apply delete_insert_id. exact Hfresh.
Qed.

(** [run] leaves the clients and the documents as it found them. *)
Lemma run_heap (cmd : cmd_mode) (s : settings) (pc a : loc) (w w' : world)
    (prior : power_client_t) (status : Z) :
  0 < timeout s < 2 ^ 31 ->
  client_slots w !! pc = Some prior ->
  plist_slots w !! a = Some None ->
  run cmd s pc a w = Ret status w' ->
  clients w' = clients w /\ plists w' = plists w.
Proof.
  intros Ht Hpc Ha.
  assert (Hnull : forall t, owns_at_most a (plists w)
            (World (clients w) (plists w) (client_slots w) (plist_slots w) t))
    by (intros t; left; auto).
  unfold run. cbv zeta.
  unfold bind at 1. unfold call at 1.
  destruct (decide _).
  { unfold bind, call. intros H.
    apply (cleanup_heap a (plists w)) in H; [exact H | apply Hnull]. }
  unfold bind at 1. unfold call at 1.
  destruct (decide _).
  { unfold bind, call. intros H.
    apply (cleanup_heap a (plists w)) in H; [exact H | apply Hnull]. }
  unfold bind at 1. unfold call at 1.
  unfold bind at 1. unfold call at 1.
  destruct (decide _).
  { unfold bind, call. intros H.
    apply (cleanup_heap a (plists w)) in H; [exact H | apply Hnull]. }
  unfold bind at 1. world_simpl.
  match goal with
  | |- context [assert_power cmd s ?dv ?sv pc a ?w0] =>
      destruct (assert_power cmd s dv sv pc a w0) as [| result w1] eqn:Hpower;
      [discriminate |];
      apply (assert_power_heap cmd s dv sv pc a w0 w1 prior result Ht Hpc Ha)
        in Hpower
  end.
  destruct Hpower as [Hclients Howns].
  cbn [clients plists] in Hclients, Howns.
  assert (Hafter : forall e, owns_at_most a (plists w) (after_call w1 e))
    by (intros e; exact Howns).
  unfold bind at 1.
  match goal with
  | |- context [match ?sv with Some _ => call ?e | None => ret tt end w1] =>
      assert (Hfree : exists w2,
                (match sv with Some _ => call e | None => ret tt end) w1 = Ret tt w2 /\
                clients w2 = clients w1 /\ owns_at_most a (plists w) w2)
        by (destruct sv; eexists; (split; [reflexivity |]); split;
            solve [reflexivity | exact Howns | apply Hafter])
  end.
  destruct Hfree as (w2 & Hrun2 & Hclients2 & Howns2).
  rewrite Hrun2. unfold bind, call. intros H.
  apply (cleanup_heap a (plists w)) in H; [| exact Howns2].
  destruct H as [H1 H2]. split; [| exact H2].
  rewrite H1. world_simpl. congruence.
Qed.

(** X12.  Every run of [main] that exits leaves no client and no document
    behind: the client it created and the documents it built or received
    have been released on whatever path it took. *)
Theorem main_releases_memory (opts : list (ascii * string)) (args : list string)
    (status : Z) (w' : world) :
  main opts args initial_world = Ret status w' ->
  clients w' = ∅ /\ plists w' = ∅.
Proof.
  destruct (parse_options_run opts default_settings) as (r & es & Hrun & _ & Hends);
    [cbn [timeout default_settings]; lia |].
  unfold main, bind, local_power_client, local_plist. world_simpl.
  fold default_settings. rewrite Hrun.
  set (pc := fresh (dom (client_slots initial_world))).
  set (a := fresh (dom (plist_slots initial_world))).
  set (w1 := after_calls _ es).
  assert (Hclients1 : clients w1 = ∅) by reflexivity.
  assert (Hplists1 : plists w1 = ∅) by reflexivity.
  assert (Hpc : client_slots w1 !! pc = Some None) by apply lookup_insert_eq.
  assert (Ha : plist_slots w1 !! a = Some None) by apply lookup_insert_eq.
  clearbody w1.
  destruct r as [st | s].
  { intros H. injection H as _ <-. auto. }
  destruct args as [| arg rest].
  { unfold bind, call, ret. intros H. injection H as _ <-. auto. }
  assert (Hknown : forall cmd,
            run cmd s pc a w1 = Ret status w' -> clients w' = ∅ /\ plists w' = ∅).
  { intros cmd H.
    apply (run_heap cmd s pc a w1 w' None status (proj2 Hends) Hpc Ha) in H.
    destruct H as [-> ->]. auto. }
  destruct (command arg); try apply Hknown.
  unfold bind, call. intros H.
  apply (cleanup_heap a (plists w1)) in H; [| left; auto].
  destruct H as [-> ->]. auto.
Qed.

End DriverMemory.

(** * The option loop and the stages, in order *)

(** Takes membership in an explicit list of calls apart and drops the cases
    that equate two different calls. *)
Ltac member_cases Hin :=
  cbn [In] in Hin; decompose [or] Hin;
  repeat match goal with
         | E : _ = _ |- _ => discriminate E
         | F : False |- _ => destruct F
         end.

(** Finds the call asked for in an explicit list, and its reply among the
    hypotheses. *)
Ltac find_call :=
  eexists; eexists;
  split; [cbn [In]; repeat first [left; reflexivity | right] | eassumption].

(** Closes the goal of [run_course_ordered] once the replies are known. *)
Ltac ordered_leaf :=
  let H := fresh "H" in
  intros H; injection H as _ <-;
  cbn [power_error fst snd app];
  split;
  [ unfold stages_ordered; (split; [| split; [| split]]);
    (let x := fresh "x" in let y := fresh "y" in let Hin := fresh "Hin" in
     intros x y Hin; member_cases Hin;
     match goal with
     | E : ?c _ _ = ?c _ _ |- _ => injection E as <- <-
     end;
     first [ find_call
           | split;
             [ discriminate
             | split; [eexists; split; [reflexivity | assumption] | find_call] ] ])
  | let b := fresh "b" in let Hin := fresh "Hin" in
    intros b Hin; member_cases Hin ].

Section Order.
Context {transport : Transport} {libc : Libc} {discovery : Discovery}.


(** The calls of [run], whatever the replies are, come in the order of the
    stages and contain no usage text. *)
Lemma run_course_ordered (cmd : cmd_mode) (s : settings) (status : Z)
    (es : list event) :
  run_course cmd s = Some (status, es) ->
  stages_ordered es /\ forall is_error, ~ In (print_usage_call is_error) es.
Proof.
  unfold run_course, assert_power_course, exchange_course, calls_before_exchange,
    calls_after_exchange, sent, received, connected, started, shaken, found.
  cbv zeta.
  destruct (idevice_new_with_options_reply (udid s) (use_network s))
    as [e1 device] eqn:Hfound; cbn [fst snd].
  destruct (lockdownd_client_new_with_handshake_reply device TOOL_NAME)
    as [e2 control] eqn:Hshaken; cbn [fst snd].
  destruct (lockdownd_start_service_reply control "com.apple.mobile.assertion_agent")
    as [e3 service] eqn:Hstarted; cbn [fst snd].
  destruct (client_new_reply device service) as [e4 session] eqn:Hconnected;
    cbn [fst snd].
  destruct e1 as [| c1]; [| ordered_leaf].
  destruct e2 as [| c2]; [| ordered_leaf].
  destruct e3 as [| c3]; [| ordered_leaf].
  destruct service as [sd|]; [| ordered_leaf].
  destruct (Z.gtb_spec (port sd) 0) as [Hport | Hport]; [| ordered_leaf].
  destruct device as [dv|]; [| ordered_leaf].
  destruct e4; try ordered_leaf.
  destruct malloc_fails; [discriminate |].
  destruct (send_binary_plist_reply session (Some (request cmd (timeout s))));
    try ordered_leaf.
  destruct (receive_plist_with_timeout_reply session 1000) as [e6 document];
    destruct e6, document; ordered_leaf.
Qed.

Lemma stages_ordered_console (es es' : list event) :
  Forall (fun e => console_event e = true) es ->
  stages_ordered es' ->
  stages_ordered (es ++ es').
Proof.
  intros Hes (H1 & H2 & H3 & H4). unfold stages_ordered.
  split; [| split; [| split]]; intros x y Hin;
    (apply in_app_iff in Hin; destruct Hin as [Hin | Hin];
     [apply (console_member es _ Hes) in Hin; discriminate Hin |]).
  - destruct (H1 x y Hin) as (u & n & Hcall & Hreply).
    exists u, n. split; [apply in_or_app; right; exact Hcall | exact Hreply].
  - destruct (H2 x y Hin) as (d & l & Hcall & Hreply).
    exists d, l. split; [apply in_or_app; right; exact Hcall | exact Hreply].
  - destruct (H3 x y Hin) as (Hd & Hsd & c & i & Hcall & Hreply).
    split; [exact Hd |]. split; [exact Hsd |].
    exists c, i. split; [apply in_or_app; right; exact Hcall | exact Hreply].
  - destruct (H4 x y Hin) as (d & sv & Hcall & Hreply).
    exists d, sv. split; [apply in_or_app; right; exact Hcall | exact Hreply].
Qed.

(** The option loop prints the usage on stderr only when it returns 2. *)
Lemma parse_options_stderr (opts : list (ascii * string)) :
  forall (s : settings) (w w' : world) (r : parsed),
    parse_options opts s w = Ret r w' ->
    In (print_usage_call true) (trace w') ->
    In (print_usage_call true) (trace w) \/ r = Exit 2.
Proof.
  induction opts as [| [c optarg] rest IH]; intros s w w' r.
  { intros H. injection H as _ <-. auto. }
  cbn [parse_options].
  assert (Hstop : forall (c1 : M parsed),
            (exists w1, c1 w = Ret (Exit 2) w1) ->
            c1 w = Ret r w' ->
            In (print_usage_call true) (trace w') ->
            In (print_usage_call true) (trace w) \/ r = Exit 2).
  { intros c1 [w1 Hc1] H _. rewrite Hc1 in H. injection H as <- _. auto. }
  destruct (Ascii.eqb c "d").
  { unfold bind, call. intros H Hin.
    destruct (IH _ _ _ _ H Hin) as [Hin0 | Hr]; [| auto].
    cbn [trace] in Hin0. apply in_app_iff in Hin0.
    destruct Hin0 as [Hin0 | [Hin0 | []]]; [auto | discriminate Hin0]. }
  destruct (Ascii.eqb c "u").
  { destruct (String.eqb optarg ""); [| apply IH].
    apply Hstop. eexists; reflexivity. }
  destruct (Ascii.eqb c "t").
  { destruct (String.eqb optarg ""); [apply Hstop; eexists; reflexivity |].
    cbv zeta. destruct (atoi optarg <=? 0); [| apply IH].
    apply Hstop. eexists; reflexivity. }
  destruct (Ascii.eqb c "n"); [apply IH |].
  destruct (Ascii.eqb c "h").
  { unfold bind, call, ret. intros H Hin. injection H as _ <-.
    cbn [trace] in Hin. apply in_app_iff in Hin.
    destruct Hin as [Hin | [Hin | []]]; [auto | discriminate Hin]. }
  destruct (Ascii.eqb c "v").
  { unfold bind, call, ret. intros H Hin. injection H as _ <-.
    cbn [trace] in Hin. apply in_app_iff in Hin.
    destruct Hin as [Hin | [Hin | []]]; [auto | discriminate Hin]. }
  apply Hstop. eexists; reflexivity.
Qed.

(** X14.  Whenever [main] prints the usage it has called no collaborator:
    all it has done is console output.  The usage on stdout goes with the
    exit status 0, the usage on stderr with a status other than 0. *)
Theorem usage_printed (opts : list (ascii * string)) (args : list string)
    (status : Z) (w' : world) (is_error : bool) :
  main opts args initial_world = Ret status w' ->
  In (print_usage_call is_error) (trace w') ->
  Forall (fun e => console_event e = true) (trace w') /\
  (status = 0 <-> is_error = false).
Proof.
  intros Hmain.
  destruct (main_run opts args) as (r & es & Hrun & Hes & Hends & Hfin).
  assert (Hstderr : In (print_usage_call true) es -> r = Exit 2).
  { intros Hin.
    destruct (parse_options_stderr opts default_settings initial_world
                (after_calls initial_world es) r (Hrun initial_world) Hin)
      as [[] | Hr]; exact Hr. }
  assert (Hstdout : In (print_usage_call false) es -> r = Exit 0)
    by (intros Hin; apply Hends; left; exact Hin).
  assert (Hcourse : main_course r es args = Some (status, trace w')).
  { unfold finishes in Hfin.
    destruct (main_course r es args) as [[st evs]|].
    - destruct Hfin as (w0 & Hmain0 & Htrace0).
      rewrite Hmain in Hmain0. injection Hmain0 as Hst Hw. subst.
      rewrite Htrace0. reflexivity.
    - rewrite Hmain in Hfin. discriminate Hfin. }
  clear Hfin Hrun. unfold main_course in Hcourse.
  destruct r as [st | s].
  { injection Hcourse as <- <-. intros Hin. split; [exact Hes |].
    destruct Hends as [_ [-> | [-> _]]]; destruct is_error;
      split; try reflexivity; try discriminate; intros _; exfalso.
    - specialize (Hstderr Hin). discriminate Hstderr.
    - specialize (Hstdout Hin). discriminate Hstdout. }
  assert (Hquiet : forall (format : string) (st : Z),
            st <> 0 ->
            Some (st, es ++ [printf_call true format; print_usage_call true])
              = Some (status, trace w') ->
            In (print_usage_call is_error) (trace w') ->
            Forall (fun e => console_event e = true) (trace w') /\
            (status = 0 <-> is_error = false)).
  { intros format st Hst H. injection H as <- <-. intros Hin.
    split; [apply Forall_app; split; [exact Hes | repeat constructor] |].
    apply in_app_iff in Hin. destruct Hin as [Hin | Hin].
    - destruct is_error;
        [specialize (Hstderr Hin); discriminate Hstderr
        | specialize (Hstdout Hin); discriminate Hstdout].
    - member_cases Hin.
      match goal with E : print_usage_call _ = _ |- _ => injection E as <- end.
      split; [contradiction | discriminate]. }
  destruct args as [| arg rest];
    [eapply (Hquiet _ 2); [discriminate | exact Hcourse] |].
  assert (Hknown : forall cmd,
            match run_course cmd s with
            | None => None
            | Some (status0, es') => Some (status0, es ++ es')
            end = Some (status, trace w') ->
            In (print_usage_call is_error) (trace w') ->
            Forall (fun e => console_event e = true) (trace w') /\
            (status = 0 <-> is_error = false)).
  { intros cmd H.
    destruct (run_course cmd s) as [[st es']|] eqn:Hcmd; [| discriminate H].
    injection H as _ <-. intros Hin. exfalso.
    apply in_app_iff in Hin. destruct Hin as [Hin | Hin].
    - destruct is_error;
        [specialize (Hstderr Hin); discriminate Hstderr
        | specialize (Hstdout Hin); discriminate Hstdout].
    - exact (proj2 (run_course_ordered cmd s st es' Hcmd) is_error Hin). }
  destruct (command arg);
    [eapply (Hquiet _ EXIT_FAILURE); [discriminate | exact Hcourse] | ..];
    exact (Hknown _ Hcourse).
Qed.

(** X15.  In every run of [main] that exits, a stage is attempted only after
    the stage before it has succeeded, and on what that stage gave: the
    handshake on the device found, the service start on the control
    connection of the handshake, the session creation on a non-null device
    and a descriptor with a port above 0 from the service start, and the
    send on the session created. *)
Theorem stages_in_order (opts : list (ascii * string)) (args : list string)
    (status : Z) (w' : world) :
  main opts args initial_world = Ret status w' ->
  let tr := trace w' in
  (forall d l,
     In (lockdownd_client_new_with_handshake_call d l) tr ->
     exists u n,
       In (idevice_new_with_options_call u n) tr /\
       idevice_new_with_options_reply u n = (IDEVICE_E_SUCCESS, d)) /\
  (forall c i,
     In (lockdownd_start_service_call c i) tr ->
     exists d l,
       In (lockdownd_client_new_with_handshake_call d l) tr /\
       lockdownd_client_new_with_handshake_reply d l = (LOCKDOWN_E_SUCCESS, c)) /\
  (forall d sv,
     In (property_list_service_client_new_call d sv) tr ->
     d <> None /\
     (exists sd, sv = Some sd /\ 0 < port sd) /\
     exists c i,
       In (lockdownd_start_service_call c i) tr /\
       lockdownd_start_service_reply c i = (LOCKDOWN_E_SUCCESS, sv)) /\
  (forall session document,
     In (property_list_service_send_binary_plist_call session document) tr ->
     exists d sv,
       In (property_list_service_client_new_call d sv) tr /\
       client_new_reply d sv = (PROPERTY_LIST_SERVICE_E_SUCCESS, session)).
Proof.
  intros Hmain tr. change (stages_ordered tr). subst tr.
  destruct (main_trace opts args status w' Hmain)
    as (r & es & _ & Hes & _ & Hcourse).
  assert (Hquiet : forall es',
            Forall (fun e => console_event e = true) es' ->
            stages_ordered (es ++ es')).
  { intros es' Hes'. apply stages_ordered_console; [exact Hes |].
    unfold stages_ordered.
    split; [| split; [| split]]; intros x y Hin;
      apply (console_member es' _ Hes') in Hin; discriminate Hin. }
  unfold main_course in Hcourse.
  destruct r as [st | s].
  { injection Hcourse as _ <-. rewrite <- (app_nil_r es). apply Hquiet. constructor. }
  destruct args as [| arg rest].
  { injection Hcourse as _ <-. apply Hquiet. repeat constructor. }
  assert (Hknown : forall cmd,
            match run_course cmd s with
            | None => None
            | Some (status0, es') => Some (status0, es ++ es')
            end = Some (status, trace w') ->
            stages_ordered (trace w')).
  { intros cmd H.
    destruct (run_course cmd s) as [[st es']|] eqn:Hcmd; [| discriminate H].
    injection H as _ <-. apply stages_ordered_console; [exact Hes |].
    exact (proj1 (run_course_ordered cmd s st es' Hcmd)). }
  destruct (command arg).
  { injection Hcourse as _ <-. apply Hquiet. repeat constructor. }
  all: exact (Hknown _ Hcourse).
Qed.

End Order.

(** * What a successful [power_client_new] leaves *)

Section NewClient.
Context {transport : Transport} {libc : Libc}.

(** X16.  When [power_client_new] returns POWER_E_SUCCESS, the device and
    the descriptor were non-null with a port other than 0, the transport
    reported success, and [*client] points to a newly allocated client that
    wraps exactly the session the transport handed out; nothing else among
    the clients has changed. *)
Theorem power_client_new_success (w w' : world) (device : idevice_t)
    (service : lockdownd_service_descriptor_t) (s : loc) (prior : power_client_t) :
  client_slots w !! s = Some prior ->
  power_client_new device service (Some s) w = Ret POWER_E_SUCCESS w' ->
  (exists dv sd, device = Some dv /\ service = Some sd /\ port sd <> 0) /\
  fst (client_new_reply device service) = PROPERTY_LIST_SERVICE_E_SUCCESS /\
  exists c,
    client_slots w' !! s = Some (Some c) /\
    clients w !! c = None /\
    clients w' = <[c := {| parent := snd (client_new_reply device service) |}]>
                   (clients w) /\
    plists w' = plists w /\
    trace w' = trace w ++ [property_list_service_client_new_call device service].
Proof.
  intros Hs. rewrite (power_client_new_run w device service s prior Hs).
  destruct device as [dv|]; [| discriminate].
  destruct service as [sd|]; [| discriminate].
  destruct (Z.eqb_spec (port sd) 0) as [| Hport]; [discriminate |].
  cbv zeta.
  destruct (client_new_reply (Some dv) (Some sd)) as [err session].
  destruct err; try discriminate.
  destruct malloc_fails; [discriminate |].
  intros H. injection H as <-. cbn [fst snd clients plists client_slots trace].
  split; [exists dv, sd; auto |]. split; [reflexivity |].
  exists (fresh (dom (clients w))).
  rewrite lookup_insert_eq.
  repeat split. apply not_elem_of_dom_1, is_fresh.
Qed.

End NewClient.

(** * The further properties at concrete inputs *)

Lemma power_client_new_success_witness :
  exists dv sd,
    Some 3%positive = Some dv /\ Some {| port := 49152 |} = Some sd /\ port sd <> 0.
Proof.
  refine (proj1 (power_client_new_success
                   (transport := good_transport (PLIST_STRING "ack"))
                   (libc := decimal_libc)
                   one_client
                   (World {[ 1%positive := {| parent := Some 7%positive |};
                             2%positive := {| parent := Some 7%positive |} ]} ∅
                          {[ 1%positive := Some 2%positive ]}
                          {[ 1%positive := None ]}
                          [property_list_service_client_new_call (Some 3%positive)
                             (Some {| port := 49152 |})])
                   (Some 3%positive) (Some {| port := 49152 |}) 1%positive None
                   _ _)).
  - vm_compute; reflexivity.
  - vm_compute; reflexivity.
Defined.

Lemma power_receive_with_timeout_footprint_witness :
  (POWER_E_SUCCESS = POWER_E_SUCCESS \/ POWER_E_SUCCESS = POWER_E_MUX_ERROR) /\
  clients one_client_received = clients one_client /\
  client_slots one_client_received = client_slots one_client /\
  exists a c,
    Some 1%positive = Some a /\ clients one_client !! a = Some c /\
    trace one_client_received =
      trace one_client
      ++ [property_list_service_receive_plist_with_timeout_call (parent c) 1000].
Proof.
  apply (power_receive_with_timeout_footprint
           (transport := good_transport (PLIST_STRING "ack"))
           one_client one_client_received (Some 1%positive) (Some 1%positive) 1000
           POWER_E_SUCCESS).
  vm_compute; reflexivity.
Defined.

Lemma power_send_footprint_witness :
  plists
    (after_call populated
       (property_list_service_send_binary_plist_call (Some 7%positive)
          (Some (PLIST_STRING "earlier"))))
  = plists populated.
Proof.
  refine (proj1 (proj2 (power_send_footprint
                          (transport := good_transport (PLIST_STRING "ack"))
                          populated _ (Some 1%positive) (Some 1%positive)
                          POWER_E_SUCCESS _))).
  vm_compute; reflexivity.
Defined.

Lemma power_client_free_once_witness :
  exists w1,
    power_client_free (transport := good_transport (PLIST_STRING "ack"))
      (Some 1%positive) one_client =
      Ret (power_error (client_free_reply
                          (Transport := good_transport (PLIST_STRING "ack"))
                          (Some 7%positive))) w1 /\
    clients w1 = delete 1%positive (clients one_client) /\
    plists w1 = plists one_client /\
    trace w1 = trace one_client
               ++ [property_list_service_client_free_call (Some 7%positive)] /\
    power_client_free (transport := good_transport (PLIST_STRING "ack"))
      (Some 1%positive) w1 = Fault /\
    power_send (transport := good_transport (PLIST_STRING "ack"))
      (Some 1%positive) None w1 = Fault /\
    power_receive_with_timeout (transport := good_transport (PLIST_STRING "ack"))
      (Some 1%positive) (Some 1%positive) 1000 w1 = Fault.
Proof.
  apply (power_client_free_once
           (transport := good_transport (PLIST_STRING "ack"))
           one_client 1%positive {| parent := Some 7%positive |}).
  vm_compute; reflexivity.
Defined.

Lemma power_client_new_failure_frame_witness :
  clients (cleared 1%positive one_client) = clients one_client.
Proof.
  refine (proj1 (power_client_new_failure_frame
                   (transport := good_transport (PLIST_STRING "ack"))
                   (libc := decimal_libc)
                   one_client (cleared 1%positive one_client) None
                   (Some {| port := 49152 |}) 1%positive None
                   POWER_E_INVALID_ARG _ _ _)).
  - vm_compute; reflexivity.
  - vm_compute; reflexivity.
  - discriminate.
Defined.

Lemma power_client_new_then_free_witness :
  exists w1 w2 c,
    power_client_new (transport := good_transport (PLIST_STRING "ack"))
      (libc := decimal_libc)
      (Some 3%positive) (Some {| port := 49152 |}) (Some 1%positive) one_client
      = Ret POWER_E_SUCCESS w1 /\
    client_slots w1 !! 1%positive = Some (Some c) /\
    power_client_free (transport := good_transport (PLIST_STRING "ack"))
      (Some c) w1 =
      Ret (power_error (client_free_reply
                          (Transport := good_transport (PLIST_STRING "ack"))
                          (Some 7%positive))) w2 /\
    clients w2 = clients one_client /\
    plists w2 = plists one_client /\
    trace w2 =
      trace one_client
      ++ [property_list_service_client_new_call (Some 3%positive)
            (Some {| port := 49152 |});
          property_list_service_client_free_call (Some 7%positive)].
Proof.
  apply (power_client_new_then_free
           (transport := good_transport (PLIST_STRING "ack")) (libc := decimal_libc)
           one_client 3%positive 1%positive {| port := 49152 |} None
           (Some 7%positive)).
  - vm_compute; reflexivity.
  - vm_compute; discriminate.
  - reflexivity.
  - reflexivity.
Defined.

Lemma request_sent_witness :
  exists status w' before after,
    main (transport := good_transport (PLIST_STRING "ack")) (libc := decimal_libc)
      (discovery := good_discovery)
      [("t"%char, "5"%string)] ["sync"%string] initial_world = Ret status w' /\
    trace w' =
      before
      ++ property_list_service_send_binary_plist_call (Some 7%positive)
           (Some (PLIST_DICT
                    [("CommandKey", PLIST_STRING "CommandCreateAssertion");
                     ("AssertionTypeKey",
                      PLIST_STRING "AMDPowerAssertionTypeWirelessSync");
                     ("AssertionNameKey", PLIST_STRING "idevicepower");
                     ("AssertionTimeoutKey", PLIST_UINT 5);
                     ("AssertionDetailKey", PLIST_STRING "power update")]%string))
      :: after /\
    (forall session document,
       ~ In (property_list_service_send_binary_plist_call session document) before) /\
    (forall session document,
       ~ In (property_list_service_send_binary_plist_call session document) after).
Proof.
  refine (request_sent
            (transport := good_transport (PLIST_STRING "ack")) (libc := decimal_libc)
            (discovery := good_discovery)
            [("t"%char, "5"%string)] ["sync"%string] timeout_5 "sync"%string []
            _ _ _ _).
  - vm_compute; reflexivity.
  - reflexivity.
  - vm_compute; discriminate.
  - apply good_run_reaches_exchange.
Defined.

(** The run of [idevicepower -h]. *)
Lemma help_run :
  main (transport := good_transport (PLIST_STRING "ack")) (libc := decimal_libc)
    (discovery := good_discovery)
    [("h"%char, ""%string)] ["idle"%string] initial_world
  = Ret 0 help_final.
Proof. vm_compute; reflexivity. Qed.

Lemma exit_status_range_witness : 0 = 0 \/ 0 = 1 \/ 0 = 2.
Proof.
  exact (proj1 (exit_status_range
                  (transport := good_transport (PLIST_STRING "ack"))
                  (libc := decimal_libc) (discovery := good_discovery)
                  _ _ 0 idle_30_final idle_30_run)).
Defined.

Lemma receive_follows_send_witness :
  (exists n, In (sleep_call n) idle_30_calls) <->
  (exists session document,
     In (property_list_service_send_binary_plist_call session document)
        idle_30_calls).
Proof.
  exact (proj2 (receive_follows_send
                  (transport := good_transport (PLIST_STRING "ack"))
                  (libc := decimal_libc) (discovery := good_discovery)
                  _ _ 0 idle_30_final idle_30_run)).
Defined.


Lemma main_releases_memory_witness :
  clients idle_30_final = ∅ /\ plists idle_30_final = ∅.
Proof.
  exact (main_releases_memory
           (transport := good_transport (PLIST_STRING "ack"))
           (libc := decimal_libc) (discovery := good_discovery)
           _ _ 0 idle_30_final idle_30_run).
Defined.

Lemma usage_printed_witness :
  Forall (fun e => console_event e = true) (trace help_final) /\
  (0 = 0 <-> false = false).
Proof.
  refine (usage_printed
            (transport := good_transport (PLIST_STRING "ack"))
            (libc := decimal_libc) (discovery := good_discovery)
            _ _ 0 help_final false help_run _).
  left. reflexivity.
Defined.

Lemma stages_in_order_witness :
  exists d sv,
    In (property_list_service_client_new_call d sv) idle_30_calls /\
    client_new_reply (Transport := good_transport (PLIST_STRING "ack")) d sv
    = (PROPERTY_LIST_SERVICE_E_SUCCESS, Some 7%positive).
Proof.
  refine (proj2 (proj2 (proj2 (stages_in_order
                  (transport := good_transport (PLIST_STRING "ack"))
                  (libc := decimal_libc) (discovery := good_discovery)
                  _ _ 0 idle_30_final idle_30_run)))
            (Some 7%positive) (Some (request CMD_USER_IDLE_SLEEP 30)) _).
  do 5 right. left. reflexivity.
Defined.
